(** * CRUD_API: the Express server of [src/index.ts]

    A shallow embedding of the server: the JSON values it reads and writes,
    the two Zod schemas, the [users] and [items] tables behind Knex, the
    [authenticateToken] middleware, the [/register] and [/login] handlers,
    the protected routes, and the middleware stack in the order in which
    [index.ts] registers it.

    The packages the file imports (zod, bcryptjs, jsonwebtoken, knex over
    SQLite, cors, express) are not part of the repository.  What the server
    needs from them is stated as interfaces ([Zod], [Bcrypt], [Jws],
    [Sqlite]); the handlers are written against the interfaces. *)

From Stdlib Require Import String Ascii List ZArith Bool Lia.
From Stdlib Require Import Sorted Permutation.
Import ListNotations.
Open Scope string_scope.
Open Scope Z_scope.

(** ** JSON values *)

#[warnings="-register-all"]
Inductive json :=
| JNull
| JBool (b : bool)
| JNum (n : Z)
| JStr (s : string)
| JArr (xs : list json)
| JObj (fields : list (string * json)).

(** Property access [o.k]; [None] is JavaScript's [undefined]. *)
Fixpoint obj_get (fields : list (string * json)) (k : string) : option json :=
  match fields with
  | [] => None
  | (k', v) :: rest => if String.eqb k' k then Some v else obj_get rest k
  end.

Definition field (j : json) (k : string) : option json :=
  match j with
  | JObj fields => obj_get fields k
  | _ => None
  end.

Inductive js_type :=
| TUndefined | TNull | TBoolean | TNumber | TString | TArray | TObject.

Definition type_of (v : option json) : js_type :=
  match v with
  | None => TUndefined
  | Some JNull => TNull
  | Some (JBool _) => TBoolean
  | Some (JNum _) => TNumber
  | Some (JStr _) => TString
  | Some (JArr _) => TArray
  | Some (JObj _) => TObject
  end.

(** ** Zod: [safeParse] of the two schemas *)

Inductive zod_issue :=
| invalid_type (path : list string) (expected received : js_type)
| too_small (path : list string) (minimum : nat) (message : option string).

(** [parsed.error.format()] turns the issues into the JSON sent back under
    the [errors] key.  It sees the issues only, never the parsed input. *)
Class Zod := { format : list zod_issue -> json }.

(** [z.string().min(minimum, message)] at [path]. *)
Definition z_string_min (path : list string) (minimum : nat) (message : option string)
    (v : option json) : list zod_issue + string :=
  match v with
  | Some (JStr s) =>
      if (String.length s <? minimum)%nat
      then inl [too_small path minimum message]
      else inr s
  | other => inl [invalid_type path TString (type_of other)]
  end.

(** [z.string().optional()] at [path]. *)
Definition z_string_optional (path : list string) (v : option json)
    : list zod_issue + option string :=
  match v with
  | None => inr None
  | Some (JStr s) => inr (Some s)
  | other => inl [invalid_type path TString (type_of other)]
  end.

Definition issues_of {A : Type} (r : list zod_issue + A) : list zod_issue :=
  match r with
  | inl issues => issues
  | inr _ => []
  end.

(** [userSchema.safeParse]: [username] a string of length at least 1,
    [password] a string of length at least 6. *)
Definition userSchema (body : json) : list zod_issue + (string * string) :=
  match body with
  | JObj fields =>
      let username := z_string_min ["username"] 1 None (obj_get fields "username") in
      let password := z_string_min ["password"] 6 None (obj_get fields "password") in
      match username, password with
      | inr u, inr p => inr (u, p)
      | _, _ => inl (issues_of username ++ issues_of password)%list
      end
  | other => inl [invalid_type [] TObject (type_of (Some other))]
  end.

(** [itemSchema.safeParse]: [name] a non-empty string, [description] an
    optional string. *)
Definition itemSchema (body : json) : list zod_issue + (string * option string) :=
  match body with
  | JObj fields =>
      let name := z_string_min ["name"] 1 (Some "Name is required") (obj_get fields "name") in
      let description := z_string_optional ["description"] (obj_get fields "description") in
      match name, description with
      | inr n, inr d => inr (n, d)
      | _, _ => inl (issues_of name ++ issues_of description)%list
      end
  | other => inl [invalid_type [] TObject (type_of (Some other))]
  end.

(** ** The database: the [users] and [items] tables *)

Record user_row := { u_id : Z; u_username : string; u_password : string }.
Record item_row := { i_id : Z; i_name : string; i_description : option string }.

(** Both tables have an autoincrement primary key; [users_seq] and
    [items_seq] are the last ids handed out. *)
Record db := {
  users : list user_row;
  users_seq : Z;
  items : list item_row;
  items_seq : Z
}.

(** [db("users").where({ username }).first()] *)
Definition users_where_username (d : db) (username : string) : option user_row :=
  find (fun r => String.eqb (u_username r) username) (users d).

(** [db("users").where({ id }).first()] *)
Definition users_where_id (d : db) (id : Z) : option user_row :=
  find (fun r => Z.eqb (u_id r) id) (users d).

(** [db("users").insert({ username, password })] *)
Definition users_insert (d : db) (username password : string) : db :=
  let id := users_seq d + 1 in
  {| users := (users d ++ [{| u_id := id; u_username := username; u_password := password |}])%list;
     users_seq := id;
     items := items d;
     items_seq := items_seq d |}.

Definition items_where_id (d : db) (id : option Z) : option item_row :=
  match id with
  | Some n => find (fun r => Z.eqb (i_id r) n) (items d)
  | None => None
  end.

(** [db("items").insert({ name, description })], returning the new id. *)
Definition items_insert (d : db) (name : string) (description : option string) : Z * db :=
  let id := items_seq d + 1 in
  (id,
   {| users := users d;
      users_seq := users_seq d;
      items := (items d ++ [{| i_id := id; i_name := name; i_description := description |}])%list;
      items_seq := id |}).

(** [db("items").where({ id }).update({ name, description })]: Knex leaves
    out the columns whose value is [undefined]. *)
Definition items_update (d : db) (id : Z) (name : string) (description : option string) : db :=
  {| users := users d;
     users_seq := users_seq d;
     items := map (fun r =>
                if Z.eqb (i_id r) id
                then {| i_id := i_id r; i_name := name;
                        i_description := match description with
                                         | Some s => Some s
                                         | None => i_description r
                                         end |}
                else r) (items d);
     items_seq := items_seq d |}.

(** [db("items").where({ id }).del()] *)
Definition items_del (d : db) (id : Z) : db :=
  {| users := users d;
     users_seq := users_seq d;
     items := filter (fun r => negb (Z.eqb (i_id r) id)) (items d);
     items_seq := items_seq d |}.

(** The [id] route parameter is a string; SQLite compares it with the
    integer column after its integer affinity conversion. *)
Class Sqlite := { integer_affinity : string -> option Z }.

(** ** bcryptjs *)

(** [bcrypt_hash password salt] is [bcrypt.hash(password, 10)] when the
    library draws [salt]; [bcrypt_compare] recomputes with the salt kept in
    the digest. *)
Class Bcrypt := {
  bcrypt_hash : string -> string -> string;
  bcrypt_compare : string -> string -> bool;
  bcrypt_compare_hash : forall password salt,
      bcrypt_compare password (bcrypt_hash password salt) = true
}.

(** ** jsonwebtoken *)

(** The payload of a token: what [/login] signs, and the two registered
    claims the library adds. *)
Record jwt_payload := { userId : Z; username : string; iat : Z; exp : Z }.

Inductive verify_error := Malformed | InvalidSignature | Expired.

(** The wire format: the keyed signature over the serialized payload, the
    compact form that joins payload and signature into one string, and the
    serialization of the payload.  [verify_unkeyed payload signature now]
    is what the package's [verify] makes of a well-formed token when it is
    handed no secret; the releases of the package differ there, and
    nothing is assumed about it. *)
Class Jws := {
  hs256 : string -> string -> string;
  compact : string -> string -> string;
  parts : string -> option (string * string);
  payload_json : jwt_payload -> string;
  payload_parse : string -> option jwt_payload;
  verify_unkeyed : string -> string -> Z -> verify_error + jwt_payload;
  parts_compact : forall p s, parts (compact p s) = Some (p, s);
  parts_empty : parts "" = None;
  payload_parse_json : forall c, payload_parse (payload_json c) = Some c
}.

(** [!secretOrPrivateKey]: [undefined] and the empty string are falsy. *)
Definition usable_secret (secret : option string) : option string :=
  match secret with
  | Some "" => None
  | other => other
  end.

Definition one_hour : Z := 3600.

Section Codec.
Context {jws : Jws}.

(** Modelled from the spec: [jwt.sign] of the jsonwebtoken package, which
    [src/] calls and does not contain.  Section 4.3: the payload is
    [{userId, username, issuedAt, expiresAt = issuedAt + expiresIn}], the
    signature is computed over the payload with the secret, and the token
    is payload and signature joined.  The clock counts seconds.  Without
    a usable secret the call throws. *)
Definition jwt_sign (id : Z) (name : string) (secret : option string) (expiresIn now : Z)
    : string + string :=
  match usable_secret secret with
  | None => inl "secretOrPrivateKey must have a value"
  | Some key =>
      let p := payload_json {| userId := id; username := name; iat := now; exp := now + expiresIn |} in
      inr (compact p (hs256 key p))
  end.

(** Modelled from the spec: [jwt.verify] of the jsonwebtoken package.
    Section 4.3: the signature is derived again from the payload and the
    secret and compared with the presented one before any field is
    trusted; a mismatch is rejected before expiry is looked at; a validly
    signed token is [Expired] once the clock has reached [exp].  A string
    that is not a compact token is [Malformed].  The spec has no verifying
    without a secret; there the package decides ([verify_unkeyed]). *)
Definition jwt_verify (token : string) (secret : option string) (now : Z)
    : verify_error + jwt_payload :=
  match parts token with
  | None => inl Malformed
  | Some (p, signature) =>
      match usable_secret secret with
      | None => verify_unkeyed p signature now
      | Some key =>
          if String.eqb (hs256 key p) signature then
            match payload_parse p with
            | None => inl Malformed
            | Some c => if exp c <=? now then inl Expired else inr c
            end
          else inl InvalidSignature
      end
  end.

End Codec.

(** ** Requests, responses, the environment *)

Inductive http_method := GET | HEAD | POST | PUT | PATCH | DELETE | OPTIONS.

(** A request as the handlers see it: the path cut at its slashes, after
    the leading one ([/items/7] is [["items"; "7"]], [/items/] is
    [["items"; ""]]), the [Authorization] header, the body as
    [express.json()] parsed it, and [req.user], which only
    [authenticateToken] sets. *)
Record request := {
  method : http_method;
  path : list string;
  authorization : option string;
  body : json;
  user : option jwt_payload
}.

Definition set_user (req : request) (u : jwt_payload) : request :=
  {| method := method req; path := path req; authorization := authorization req;
     body := body req; user := Some u |}.

(** What a handler does with a request: it sends a response (a status and,
    for [res.json], a JSON body), or it throws. *)
Inductive outcome :=
| Respond (status : Z) (body : option json)
| Throw (error : string).

Definition message (m : string) : option json := Some (JObj [("message", JStr m)]).

(** [process.env] *)
Record env := { JWT_SECRET : option string; PORT : option string }.

Definition result := (outcome * db)%type.
Definition handler := request -> db -> result.
Definition middleware := handler -> handler.

(** ** [String.prototype.replace] with a string pattern: the first
    occurrence only. *)

Fixpoint strip_prefix (pat s : string) : option string :=
  match pat, s with
  | EmptyString, _ => Some s
  | String a pat', String b s' => if Ascii.eqb a b then strip_prefix pat' s' else None
  | String _ _, EmptyString => None
  end.

Fixpoint replace (pat rep s : string) : string :=
  match strip_prefix pat s with
  | Some rest => rep ++ rest
  | None =>
      match s with
      | EmptyString => EmptyString
      | String c s' => String c (replace pat rep s')
      end
  end.

(** ** How Express matches a path

    The router is created with its defaults: a route matches without
    regard to the case of the letters, and with or without one slash at
    the end of the path. *)

(** The lower-case form of an ASCII capital; any other character is
    itself. *)
Definition lower (c : ascii) : ascii :=
  let n := nat_of_ascii c in
  if ((65 <=? n) && (n <=? 90))%nat then ascii_of_nat (n + 32) else c.

Fixpoint lowercase (s : string) : string :=
  match s with
  | EmptyString => EmptyString
  | String c s' => String (lower c) (lowercase s')
  end.

Definition segment_eqb (p s : string) : bool := String.eqb (lowercase p) (lowercase s).

(** The path of a request against the route ["/p"]. *)
Definition matches_path (p : string) (pth : list string) : bool :=
  match pth with
  | [p'] => segment_eqb p p'
  | [p'; EmptyString] => segment_eqb p p'
  | _ => false
  end.

(** The path of a request against the route ["/p/:id"]: the value of
    [:id], if the path matches. *)
Definition matches_path_id (p : string) (pth : list string) : option string :=
  match pth with
  | [p'; id] | [p'; id; EmptyString] =>
      if segment_eqb p p' && negb (String.eqb id "") then Some id else None
  | _ => None
  end.

Section Server.
Context {zod : Zod} {bcrypt : Bcrypt} {jws : Jws} {sqlite : Sqlite}.

(** ** The middleware that checks the token *)

Definition authenticateToken (e : env) (now : Z) : middleware := fun next req d =>
  let token := option_map (replace "Bearer " "") (authorization req) in
  match token with
  | None | Some EmptyString =>
      (Respond 401 (message "Access denied, token missing"), d)
  | Some token =>
      match jwt_verify token (JWT_SECRET e) now with
      | inl err => (Respond 403 (message "Invalid token"), d)
      | inr u => next (set_user req u) d
      end
  end.

(** ** [POST /register] *)

Definition register (salt : string) : handler := fun req d =>
  match userSchema (body req) with
  | inl issues => (Respond 400 (Some (JObj [("errors", format issues)])), d)
  | inr (username, password) =>
      match users_where_username d username with
      | Some userExists => (Respond 400 (message "Username already taken"), d)
      | None =>
          let hashedPassword := bcrypt_hash password salt in
          (Respond 201 (message "User registered successfully"),
           users_insert d username hashedPassword)
      end
  end.

(** ** [POST /login] *)

Definition login (e : env) (now : Z) : handler := fun req d =>
  match userSchema (body req) with
  | inl issues => (Respond 400 (Some (JObj [("errors", format issues)])), d)
  | inr (username, password) =>
      match users_where_username d username with
      | None => (Respond 400 (message "Invalid credentials"), d)
      | Some user =>
          if bcrypt_compare password (u_password user) then
            match jwt_sign (u_id user) (u_username user) (JWT_SECRET e) one_hour now with
            | inl error => (Throw error, d)
            | inr token => (Respond 200 (Some (JObj [("token", JStr token)])), d)
            end
          else (Respond 400 (message "Invalid credentials"), d)
      end
  end.

(** ** The protected routes *)

Definition opt_field (k : string) (v : option string) : list (string * json) :=
  match v with
  | Some s => [(k, JStr s)]
  | None => []
  end.

Definition item_json (r : item_row) : json :=
  JObj [("id", JNum (i_id r)); ("name", JStr (i_name r));
        ("description", match i_description r with Some s => JStr s | None => JNull end)].

Definition get_items : handler := fun req d =>
  (Respond 200 (Some (JArr (map item_json (items d)))), d).

Definition get_item (id : string) : handler := fun req d =>
  match items_where_id d (integer_affinity id) with
  | Some item => (Respond 200 (Some (item_json item)), d)
  | None => (Respond 404 (message "Item not found"), d)
  end.

Fixpoint insert_by_id (r : user_row) (rs : list user_row) : list user_row :=
  match rs with
  | [] => [r]
  | r' :: rest => if u_id r <=? u_id r' then r :: rs else r' :: insert_by_id r rest
  end.

Definition order_by_id (rs : list user_row) : list user_row :=
  fold_right insert_by_id [] rs.

Definition get_users : handler := fun req d =>
  (Respond 200
     (Some (JArr (map (fun r => JObj [("id", JNum (u_id r)); ("username", JStr (u_username r))])
                      (order_by_id (users d))))), d).

Definition get_profile : handler := fun req d =>
  match user req with
  | None => (Throw "Cannot read properties of undefined (reading 'userId')", d)
  | Some u =>
      match users_where_id d (userId u) with
      | Some row => (Respond 200 (Some (JObj [("username", JStr (u_username row))])), d)
      | None => (Respond 404 (message "User not found"), d)
      end
  end.

Definition post_items : handler := fun req d =>
  match itemSchema (body req) with
  | inl issues => (Respond 400 (Some (JObj [("errors", format issues)])), d)
  | inr (name, description) =>
      let (id, d') := items_insert d name description in
      (Respond 201 (Some (JObj ([("id", JNum id); ("name", JStr name)]
                                ++ opt_field "description" description)%list)), d')
  end.

Definition put_item (id : string) : handler := fun req d =>
  match itemSchema (body req) with
  | inl issues => (Respond 400 (Some (JObj [("errors", format issues)])), d)
  | inr (name, description) =>
      match items_where_id d (integer_affinity id) with
      | None => (Respond 404 (message "Item not found"), d)
      | Some item =>
          (Respond 200 (Some (JObj ([("id", JStr id); ("name", JStr name)]
                                    ++ opt_field "description" description)%list)),
           items_update d (i_id item) name description)
      end
  end.

Definition delete_item (id : string) : handler := fun req d =>
  match items_where_id d (integer_affinity id) with
  | None => (Respond 404 (message "Item not found"), d)
  | Some item => (Respond 200 (message "Item deleted"), items_del d (i_id item))
  end.

(** ** The stack, in registration order *)

Definition method_eqb (a b : http_method) : bool :=
  match a, b with
  | GET, GET | HEAD, HEAD | POST, POST | PUT, PUT
  | PATCH, PATCH | DELETE, DELETE | OPTIONS, OPTIONS => true
  | _, _ => false
  end.

(** A route registered for [GET] also answers [HEAD]. *)
Definition handles (registered m : http_method) : bool :=
  match registered, m with
  | GET, HEAD => true
  | _, _ => method_eqb registered m
  end.

(** [app.METHOD("/p", h)] *)
Definition route (m : http_method) (p : string) (h : handler) : middleware :=
  fun next req d =>
    if handles m (method req) && matches_path p (path req) then h req d else next req d.

(** [app.METHOD("/p/:id", h)] *)
Definition route_id (m : http_method) (p : string) (h : string -> handler) : middleware :=
  fun next req d =>
    match matches_path_id p (path req) with
    | Some id => if handles m (method req) then h id req d else next req d
    | None => next req d
    end.

(** [cors()] answers every preflight itself and lets the rest through. *)
Definition cors : middleware := fun next req d =>
  match method req with
  | OPTIONS => (Respond 204 None, d)
  | _ => next req d
  end.

(** [express.json()]: the request already carries the parsed body. *)
Definition express_json : middleware := fun next => next.

(** No layer answered. *)
Definition finalhandler : handler := fun req d => (Respond 404 None, d).

Fixpoint chain (stack : list middleware) (final : handler) : handler :=
  match stack with
  | [] => final
  | m :: rest => m (chain rest final)
  end.

Definition open_routes (e : env) (now : Z) (salt : string) : list middleware :=
  [ route POST "register" (register salt);
    route POST "login" (login e now) ].

Definition protected_routes : list middleware :=
  [ route GET "items" get_items;
    route_id GET "items" get_item;
    route GET "users" get_users;
    route GET "profile" get_profile;
    route POST "items" post_items;
    route_id PUT "items" put_item;
    route_id DELETE "items" delete_item ].

(** The application: one request at clock [now] (in seconds), with [salt]
    the salt bcrypt draws if the request hashes a password. *)
Definition app (e : env) (now : Z) (salt : string) : handler :=
  chain ([cors; express_json] ++ open_routes e now salt
         ++ [authenticateToken e now] ++ protected_routes)%list finalhandler.

(** ** Start-up: the top level of [index.ts] *)

Inductive process := Listening (port : string) | Exited (code : Z).

(** [config()], the Knex handle, the two [createTable] calls (whose errors
    are caught and logged), the stack above and [app.listen(PORT)].  The
    only variable read from the environment at this point is [PORT]. *)
Definition boot (e : env) : process :=
  Listening (match PORT e with
             | None | Some EmptyString => "3000"
             | Some p => p
             end).

Definition serve (e : env) (now : Z) (salt : string) (req : request) (d : db) : option result :=
  match boot e with
  | Listening _ => Some (app e now salt req d)
  | Exited _ => None
  end.

(** The requests served one after the other, each with the clock and the
    salt of its turn; [run] is the database they leave. *)
Record turn := { at_clock : Z; with_salt : string; the_request : request }.

Fixpoint run (e : env) (turns : list turn) (d : db) : db :=
  match turns with
  | [] => d
  | t :: rest => run e rest (snd (app e (at_clock t) (with_salt t) (the_request t) d))
  end.

End Server.

(** ** Requests as they arrive *)

(** An incoming request: [req.user] is not set yet. *)
Definition mk_request (m : http_method) (p : list string) (auth : option string) (b : json)
    : request :=
  {| method := m; path := p; authorization := auth; body := b; user := None |}.

(** The token [authenticateToken] finds in the header, if any: the header
    value without its first ["Bearer "], unless that is empty. *)
Definition presented_token (req : request) : option string :=
  match authorization req with
  | None => None
  | Some h => match replace "Bearer " "" h with
              | EmptyString => None
              | t => Some t
              end
  end.

(** The two routes registered before the gate, matched as [route]
    matches them. *)
Definition is_open (req : request) : bool :=
  handles POST (method req)
  && (matches_path "register" (path req) || matches_path "login" (path req)).

Definition is_preflight (req : request) : bool := method_eqb OPTIONS (method req).

Definition status_of (o : outcome) : option Z :=
  match o with
  | Respond status _ => Some status
  | Throw _ => None
  end.

(** A handler keeps the rows of [users]: a username that is found stays
    found, with the same row. *)
Definition keeps (h : handler) : Prop :=
  forall req d u row,
    users_where_username d u = Some row ->
    users_where_username (snd (h req d)) u = Some row.


(** ** Consistent databases, and what a handler may do *)

(** The rows of both tables stand in the order of their insertion.  A
    database is consistent when, in each table, the ids increase along
    the rows and none exceeds the table's counter, and when no two users
    share a username: what SQLite's autoincrement keys and the unique
    index on [username] maintain. *)
Record consistent (d : db) : Prop := {
  user_ids_increase : StronglySorted Z.lt (map u_id (users d));
  user_ids_issued : Forall (fun r => u_id r <= users_seq d) (users d);
  usernames_differ : NoDup (map u_username (users d));
  item_ids_increase : StronglySorted Z.lt (map i_id (items d));
  item_ids_issued : Forall (fun r => i_id r <= items_seq d) (items d)
}.

(** A handler obeys [R] when [R] relates every request and database to
    what the handler makes of them. *)
Definition obeys (R : request -> db -> result -> Prop) (h : handler) : Prop :=
  forall req d, R req d (h req d).

(** The writes of the server: the database a request leaves is the one it
    found, or the request matches one of the four writing routes, is
    answered with its success status, and the database differs by that
    one statement. *)
Definition writes (req : request) (d : db) (r : result) : Prop :=
  snd r = d
  \/ (method req = POST /\ matches_path "register" (path req) = true
      /\ status_of (fst r) = Some 201
      /\ exists u h, users_where_username d u = None /\ snd r = users_insert d u h)
  \/ (method req = POST /\ matches_path "items" (path req) = true
      /\ status_of (fst r) = Some 201
      /\ exists n dsc, snd r = snd (items_insert d n dsc))
  \/ (method req = PUT /\ (exists id, matches_path_id "items" (path req) = Some id)
      /\ status_of (fst r) = Some 200
      /\ exists k n dsc, snd r = items_update d k n dsc)
  \/ (method req = DELETE /\ (exists id, matches_path_id "items" (path req) = Some id)
      /\ status_of (fst r) = Some 200
      /\ exists k, snd r = items_del d k).

(** ** An instance of the interfaces

    Small executable stand-ins for the four packages, with the laws of
    [Bcrypt] and [Jws] proved; the examples below run the server on them. *)

Module Instances.

(** [frame a b] writes [a] with a mark before each character, a stop mark,
    then [b]; [unframe] reads the two back. *)
Fixpoint frame (a b : string) : string :=
  match a with
  | EmptyString => String "0" b
  | String c a' => String "1" (String c (frame a' b))
  end.

Fixpoint unframe (t : string) : option (string * string) :=
  match t with
  | String "0" b => Some (EmptyString, b)
  | String "1" (String c t') =>
      match unframe t' with
      | Some (a, b) => Some (String c a, b)
      | None => None
      end
  | _ => None
  end.

Fixpoint pbits (p : positive) : string :=
  match p with
  | xH => EmptyString
  | xO q => String "0" (pbits q)
  | xI q => String "1" (pbits q)
  end.

Fixpoint unpbits (s : string) : option positive :=
  match s with
  | EmptyString => Some xH
  | String "0" r => option_map xO (unpbits r)
  | String "1" r => option_map xI (unpbits r)
  | _ => None
  end.

Definition zbits (z : Z) : string :=
  match z with
  | Z0 => "z"
  | Zpos p => String "p" (pbits p)
  | Zneg p => String "n" (pbits p)
  end.

Definition unzbits (s : string) : option Z :=
  match s with
  | "z" => Some Z0
  | String "p" r => option_map Zpos (unpbits r)
  | String "n" r => option_map Zneg (unpbits r)
  | _ => None
  end.

Definition payload_to_string (c : jwt_payload) : string :=
  frame (zbits (userId c)) (frame (zbits (iat c)) (frame (zbits (exp c)) (username c))).

Definition payload_of_string (s : string) : option jwt_payload :=
  match unframe s with
  | Some (a, s1) =>
      match unframe s1 with
      | Some (b, s2) =>
          match unframe s2 with
          | Some (c, name) =>
              match unzbits a, unzbits b, unzbits c with
              | Some id, Some i, Some x =>
                  Some {| userId := id; username := name; iat := i; exp := x |}
              | _, _, _ => None
              end
          | None => None
          end
      | None => None
      end
  | None => None
  end.

Fixpoint decimal (s : string) (acc : Z) : option Z :=
  match s with
  | EmptyString => Some acc
  | String c r =>
      let n := Z.of_nat (nat_of_ascii c) - 48 in
      if (0 <=? n) && (n <=? 9) then decimal r (10 * acc + n) else None
  end.

Lemma unframe_frame a b : unframe (frame a b) = Some (a, b).
Proof.
  induction a as [|c a IH]; simpl; [reflexivity|].
  now rewrite IH.
Qed.

Lemma unpbits_pbits p : unpbits (pbits p) = Some p.
Proof.
  induction p as [q IH|q IH|]; simpl; try rewrite IH; reflexivity.
Qed.

Lemma unzbits_zbits z : unzbits (zbits z) = Some z.
Proof.
  destruct z as [|p|p]; simpl; try rewrite unpbits_pbits; reflexivity.
Qed.

Lemma payload_of_to_string c : payload_of_string (payload_to_string c) = Some c.
Proof.
  unfold payload_of_string, payload_to_string.
  rewrite !unframe_frame, !unzbits_zbits. now destruct c.
Qed.

#[export] Instance zod : Zod :=
  {| format := fun issues =>
       JArr (map (fun i => match i with
                           | invalid_type p _ _ => JObj [("code", JStr "invalid_type")]
                           | too_small p _ _ => JObj [("code", JStr "too_small")]
                           end) issues) |}.

#[export] Instance sqlite : Sqlite :=
  {| integer_affinity := fun s =>
       match s with
       | EmptyString => None
       | _ => decimal s 0
       end |}.

#[export] Instance bcrypt : Bcrypt.
Proof.
  refine {| bcrypt_hash := fun password salt => frame salt password;
            bcrypt_compare := fun password digest =>
              match unframe digest with
              | Some (_, p) => String.eqb password p
              | None => false
              end |}.
  intros password salt. rewrite unframe_frame. apply String.eqb_refl.
Defined.

#[export] Instance jws : Jws.
Proof.
  refine {| hs256 := fun key p => frame key p;
            compact := frame;
            parts := unframe;
            payload_json := payload_to_string;
            payload_parse := payload_of_string;
            verify_unkeyed := fun _ _ _ => inl InvalidSignature |}.
  - exact unframe_frame.
  - reflexivity.
  - exact payload_of_to_string.
Defined.

End Instances.

(** * Properties *)

Section Properties.
Context {zod : Zod} {bcrypt : Bcrypt} {jws : Jws} {sqlite : Sqlite}.

Lemma replace_Bearer t : replace "Bearer " "" ("Bearer " ++ t) = t.
Proof. reflexivity. Qed.

Lemma find_app_none {A} (f : A -> bool) xs ys :
  find f xs = None -> find f (xs ++ ys)%list = find f ys.
Proof.
  induction xs as [|x xs IH]; simpl; [reflexivity|].
  destruct (f x); [discriminate|exact IH].
Qed.

Lemma users_where_username_insert d u h :
  users_where_username d u = None ->
  users_where_username (users_insert d u h) u
  = Some {| u_id := users_seq d + 1; u_username := u; u_password := h |}.
Proof.
  unfold users_where_username, users_insert; simpl; intros E.
  rewrite (find_app_none _ _ _ E); simpl.
  now rewrite String.eqb_refl.
Qed.

Lemma userSchema_ok fields u p :
  obj_get fields "username" = Some (JStr u) ->
  obj_get fields "password" = Some (JStr p) ->
  (1 <= String.length u)%nat -> (6 <= String.length p)%nat ->
  userSchema (JObj fields) = inr (u, p).
Proof.
  intros Eu Ep Lu Lp. unfold userSchema, z_string_min. rewrite Eu, Ep.
  destruct (Nat.ltb_spec (String.length u) 1); [lia|].
  destruct (Nat.ltb_spec (String.length p) 6); [lia|].
  reflexivity.
Qed.

Lemma app_register e now salt auth b d :
  app e now salt (mk_request POST ["register"] auth b) d
  = register salt (mk_request POST ["register"] auth b) d.
Proof. reflexivity. Qed.

Lemma app_login e now salt auth b d :
  app e now salt (mk_request POST ["login"] auth b) d
  = login e now (mk_request POST ["login"] auth b) d.
Proof. reflexivity. Qed.

Lemma route_skip m p h next req d :
  handles m (method req) && matches_path p (path req) = false ->
  route m p h next req d = next req d.
Proof. unfold route. now intros ->. Qed.

Lemma app_gated e now salt req d :
  is_preflight req = false -> is_open req = false ->
  app e now salt req d
  = authenticateToken e now (chain protected_routes finalhandler) req d.
Proof.
  unfold is_preflight, is_open, app. intros Hp Ho.
  cbn [chain app open_routes List.app]. unfold cors at 1, express_json at 1.
  replace (match method req with OPTIONS => _ | _ => _ end)
    with (route POST "register" (register salt)
            (route POST "login" (login e now)
               (authenticateToken e now (chain protected_routes finalhandler))) req d)
    by (destruct (method req); try reflexivity; discriminate).
  rewrite !route_skip; try reflexivity;
    destruct (handles POST (method req)); cbn [andb] in *; try reflexivity;
    apply orb_false_iff in Ho; tauto.
Qed.

Lemma jwt_sign_usable id name secret key ttl now :
  usable_secret secret = Some key ->
  jwt_sign id name secret ttl now
  = inr (compact (payload_json {| userId := id; username := name; iat := now; exp := now + ttl |})
                 (hs256 key (payload_json {| userId := id; username := name;
                                             iat := now; exp := now + ttl |}))).
Proof. unfold jwt_sign. now intros ->. Qed.

Lemma jwt_verify_issued id name secret key ttl now token t :
  usable_secret secret = Some key ->
  jwt_sign id name secret ttl now = inr token ->
  jwt_verify token secret t
  = if now + ttl <=? t then inl Expired
    else inr {| userId := id; username := name; iat := now; exp := now + ttl |}.
Proof.
  intros K S. rewrite (jwt_sign_usable _ _ _ _ _ _ K) in S.
  injection S as <-. unfold jwt_verify.
  rewrite parts_compact, K, String.eqb_refl, payload_parse_json. reflexivity.
Qed.

Lemma issued_token_nonempty id name secret ttl now token :
  jwt_sign id name secret ttl now = inr token -> token <> "".
Proof.
  unfold jwt_sign. destruct (usable_secret secret); [|discriminate].
  intros S; injection S as <-. intros E.
  pose proof (parts_compact (payload_json {| userId := id; username := name;
                                             iat := now; exp := now + ttl |})
                            (hs256 s (payload_json {| userId := id; username := name;
                                                      iat := now; exp := now + ttl |}))) as P.
  rewrite E, parts_empty in P. discriminate.
Qed.

Lemma presented_Bearer m p b t :
  t <> "" -> presented_token (mk_request m p (Some ("Bearer " ++ t)) b) = Some t.
Proof.
  intros N. unfold presented_token. cbn [authorization mk_request].
  rewrite replace_Bearer. destruct t; [contradiction|reflexivity].
Qed.

Lemma authenticateToken_spec e now next req d :
  authenticateToken e now next req d
  = match presented_token req with
    | None => (Respond 401 (message "Access denied, token missing"), d)
    | Some t =>
        match jwt_verify t (JWT_SECRET e) now with
        | inl _ => (Respond 403 (message "Invalid token"), d)
        | inr u => next (set_user req u) d
        end
    end.
Proof.
  unfold authenticateToken, presented_token.
  destruct (authorization req) as [h|]; simpl; [|reflexivity].
  destruct (replace "Bearer " "" h); reflexivity.
Qed.

Lemma strip_prefix_sound pat s rest : strip_prefix pat s = Some rest -> s = pat ++ rest.
Proof.
  revert s. induction pat as [|a pat IH]; intros s; cbn [strip_prefix].
  - now intros [= ->].
  - destruct s as [|c s]; [discriminate|].
    destruct (Ascii.eqb_spec a c) as [->|]; [|discriminate].
    intros E. cbn [append]. now rewrite (IH _ E).
Qed.

Lemma replace_empty h : replace "Bearer " "" h = "" -> h = "" \/ h = "Bearer ".
Proof.
  destruct h as [|c h]; [now left|]. intros E. right.
  cbn [replace] in E.
  destruct (strip_prefix "Bearer " (String c h)) as [rest|] eqn:P; [|discriminate].
  apply strip_prefix_sound in P. cbn [append] in E. now rewrite P, E.
Qed.

Lemma userSchema_inv b u p :
  userSchema b = inr (u, p) ->
  exists fields, b = JObj fields
    /\ obj_get fields "username" = Some (JStr u)
    /\ obj_get fields "password" = Some (JStr p)
    /\ (1 <= String.length u)%nat /\ (6 <= String.length p)%nat.
Proof.
  destruct b as [| | | | |fields]; try discriminate.
  unfold userSchema, z_string_min. intros E. exists fields.
  destruct (obj_get fields "username") as [[| | |su| |]|]; try discriminate;
    destruct (obj_get fields "password") as [[| | |sp| |]|];
    try (destruct (String.length su <? 1)%nat; discriminate).
  destruct (Nat.ltb_spec (String.length su) 1); [discriminate|].
  destruct (Nat.ltb_spec (String.length sp) 6); [discriminate|].
  injection E as <- <-. auto.
Qed.

Lemma register_cases salt req d :
  register salt req d
  = match userSchema (body req) with
    | inl issues => (Respond 400 (Some (JObj [("errors", format issues)])), d)
    | inr (u, p) =>
        match users_where_username d u with
        | Some _ => (Respond 400 (message "Username already taken"), d)
        | None => (Respond 201 (message "User registered successfully"),
                   users_insert d u (bcrypt_hash p salt))
        end
    end.
Proof. reflexivity. Qed.

(** *** Rows of [users] stay

    No handler updates or deletes a row of [users]: a username that is
    found stays found, with the same row, whatever is served next. *)

Lemma find_app_some {A} (f : A -> bool) xs ys x :
  find f xs = Some x -> find f (xs ++ ys)%list = Some x.
Proof.
  induction xs as [|a xs IH]; simpl; [discriminate|].
  destruct (f a); [trivial|exact IH].
Qed.

Lemma keeps_route m p h next : keeps h -> keeps next -> keeps (route m p h next).
Proof.
  intros Hh Hn req d u row F. unfold route.
  destruct (handles m (method req) && matches_path p (path req)); auto.
Qed.

Lemma keeps_route_id m p h next :
  (forall id, keeps (h id)) -> keeps next -> keeps (route_id m p h next).
Proof.
  intros Hh Hn req d u row F. unfold route_id.
  destruct (matches_path_id p (path req)) as [id|]; auto.
  destruct (handles m (method req)); auto. now apply Hh.
Qed.

Lemma keeps_cors next : keeps next -> keeps (cors next).
Proof.
  intros Hn req d u row F. unfold cors. destruct (method req); auto.
Qed.

Lemma keeps_express_json next : keeps next -> keeps (express_json next).
Proof. trivial. Qed.

Lemma keeps_authenticateToken e now next : keeps next -> keeps (authenticateToken e now next).
Proof.
  intros Hn req d u row F. rewrite authenticateToken_spec.
  destruct (presented_token req) as [t|]; [|exact F].
  destruct (jwt_verify t (JWT_SECRET e) now); [exact F|now apply Hn].
Qed.

Lemma keeps_register salt : keeps (register salt).
Proof.
  intros req d u row F. rewrite register_cases.
  destruct (userSchema (body req)) as [issues|[u' p]]; [exact F|].
  destruct (users_where_username d u'); [exact F|].
  unfold users_where_username, users_insert in *. cbn [snd users].
  now apply find_app_some.
Qed.

Lemma keeps_login e now : keeps (login e now).
Proof.
  intros req d u row F. unfold login.
  destruct (userSchema (body req)) as [issues|[u' p]]; [exact F|].
  destruct (users_where_username d u') as [r|]; [|exact F].
  destruct (bcrypt_compare p (u_password r)); [|exact F].
  now destruct (jwt_sign (u_id r) (u_username r) (JWT_SECRET e) one_hour now).
Qed.

Lemma keeps_get_items : keeps get_items.
Proof. intros req d u row F. exact F. Qed.

Lemma keeps_get_item id : keeps (get_item id).
Proof.
  intros req d u row F. unfold get_item.
  now destruct (items_where_id d (integer_affinity id)).
Qed.

Lemma keeps_get_users : keeps get_users.
Proof. intros req d u row F. exact F. Qed.

Lemma keeps_get_profile : keeps get_profile.
Proof.
  intros req d u row F. unfold get_profile.
  destruct (user req) as [c|]; [|exact F].
  now destruct (users_where_id d (userId c)).
Qed.

Lemma keeps_post_items : keeps post_items.
Proof.
  intros req d u row F. unfold post_items.
  destruct (itemSchema (body req)) as [issues|[name description]]; exact F.
Qed.

Lemma keeps_put_item id : keeps (put_item id).
Proof.
  intros req d u row F. unfold put_item.
  destruct (itemSchema (body req)) as [issues|[name description]]; [exact F|].
  destruct (items_where_id d (integer_affinity id)); exact F.
Qed.

Lemma keeps_delete_item id : keeps (delete_item id).
Proof.
  intros req d u row F. unfold delete_item.
  destruct (items_where_id d (integer_affinity id)); exact F.
Qed.

Lemma keeps_finalhandler : keeps finalhandler.
Proof. intros req d u row F. exact F. Qed.

Create HintDb keeps.
#[local] Hint Resolve keeps_route keeps_route_id keeps_cors keeps_express_json
  keeps_authenticateToken keeps_register keeps_login keeps_get_items keeps_get_item
  keeps_get_users keeps_get_profile keeps_post_items keeps_put_item keeps_delete_item
  keeps_finalhandler : keeps.

Lemma keeps_app e now salt : keeps (app e now salt).
Proof.
  unfold app, open_routes, protected_routes. cbn [List.app chain].
  auto 20 with keeps.
Qed.

Lemma run_keeps e turns d u row :
  users_where_username d u = Some row ->
  users_where_username (run e turns d) u = Some row.
Proof.
  revert d. induction turns as [|t rest IH]; intros d F; [exact F|].
  cbn [run]. apply IH. now apply keeps_app.
Qed.

Lemma login_token_inv e now req d token d' :
  login e now req d = (Respond 200 (Some (JObj [("token", JStr token)])), d') ->
  exists row key,
    d' = d
    /\ usable_secret (JWT_SECRET e) = Some key
    /\ jwt_sign (u_id row) (u_username row) (JWT_SECRET e) one_hour now = inr token.
Proof.
  unfold login. destruct (userSchema (body req)) as [issues|[u p]]; [discriminate|].
  destruct (users_where_username d u) as [row|]; [|discriminate].
  destruct (bcrypt_compare p (u_password row)); [|discriminate].
  destruct (jwt_sign _ _ _ _ _) as [err|tok] eqn:S; [discriminate|].
  intros E; injection E as -> <-.
  unfold jwt_sign in S. destruct (usable_secret (JWT_SECRET e)) as [key|] eqn:K; [|discriminate].
  exists row, key. repeat split. unfold jwt_sign. now rewrite K.
Qed.

End Properties.

(** ** Sample data for the examples *)

Module Sample.
Import Instances.

Definition configured : env := {| JWT_SECRET := Some "s3cret"; PORT := None |}.
Definition unconfigured : env := {| JWT_SECRET := None; PORT := None |}.

Definition empty_db : db := {| users := []; users_seq := 0; items := []; items_seq := 0 |}.

Definition credentials (u p : string) : list (string * json) :=
  [("username", JStr u); ("password", JStr p)].

Definition register_request (u p : string) : request :=
  mk_request POST ["register"] None (JObj (credentials u p)).

Definition login_request (u p : string) : request :=
  mk_request POST ["login"] None (JObj (credentials u p)).

(** The database after [alice] registered with password [secret1]. *)
Definition alice_db : db :=
  snd (app configured 1000 "salt" (register_request "alice" "secret1") empty_db).

(** The token [alice] is given when she logs in at clock 2000. *)
Definition alice_token : string :=
  match fst (app configured 2000 "" (login_request "alice" "secret1") alice_db) with
  | Respond _ (Some (JObj [(_, JStr t)])) => t
  | _ => ""
  end.

Definition profile_request (auth : option string) : request :=
  mk_request GET ["profile"] auth JNull.

Definition alice_identity : jwt_payload :=
  {| userId := 1; username := "alice"; iat := 2000; exp := 5600 |}.

End Sample.

(** ** Sample data for the item routes *)

Module SampleItems.
Import Instances Sample.

Definition bearer : option string := Some ("Bearer " ++ alice_token).

Definition pen_body : json := JObj [("name", JStr "pen")].

Definition pencil_body : json := JObj [("name", JStr "pencil"); ("description", JStr "HB")].

(** The database after [alice] created the item [pen]. *)
Definition pen_db : db :=
  snd (app configured 3000 "" (mk_request POST ["items"] bearer pen_body) alice_db).

Definition pen_row : item_row := {| i_id := 1; i_name := "pen"; i_description := None |}.

Definition delete_pen : turn :=
  {| at_clock := 3200; with_salt := "";
     the_request := mk_request DELETE ["items"; "1"] bearer JNull |}.

(** [alice] registers, tries to register again, then [bob] registers. *)
Definition registrations : list turn :=
  [ {| at_clock := 1000; with_salt := "salt";
       the_request := register_request "alice" "secret1" |};
    {| at_clock := 1050; with_salt := "sugar";
       the_request := register_request "alice" "secret2" |};
    {| at_clock := 1100; with_salt := "pepper";
       the_request := register_request "bob" "hunter22" |} ].

End SampleItems.

Section Claims.
Context {zod : Zod} {bcrypt : Bcrypt} {jws : Jws} {sqlite : Sqlite}.

(** C1.  With the signing secret configured: for a username of at least
    one character and a password of at least six that is not registered
    yet, [POST /register] answers 201 and adds the user.  After that, and
    after whatever other requests were served in between, [POST /login]
    with the same credentials answers 200 with a token; at any clock
    before the token's expiry [jwt.verify] accepts the token and yields
    the id of the stored row and the username; presented as
    [Bearer <token>], [authenticateToken] passes the request on with that
    identity in [req.user]. *)
Theorem register_login_verify
    (e : env) (key : string) (d : db) (fields : list (string * json))
    (u p salt : string) (auth : option string) (t1 : Z) :
  usable_secret (JWT_SECRET e) = Some key ->
  obj_get fields "username" = Some (JStr u) ->
  obj_get fields "password" = Some (JStr p) ->
  (1 <= String.length u)%nat ->
  (6 <= String.length p)%nat ->
  users_where_username d u = None ->
  exists d1 row,
    app e t1 salt (mk_request POST ["register"] auth (JObj fields)) d
      = (Respond 201 (message "User registered successfully"), d1)
    /\ users_where_username d1 u = Some row
    /\ u_username row = u
    /\ forall (between : list turn) (t2 : Z) (salt' : string) (auth' : option string),
         exists token,
           app e t2 salt' (mk_request POST ["login"] auth' (JObj fields)) (run e between d1)
             = (Respond 200 (Some (JObj [("token", JStr token)])), run e between d1)
           /\ forall t3, t3 < t2 + one_hour ->
                let identity := {| userId := u_id row; username := u;
                                   iat := t2; exp := t2 + one_hour |} in
                jwt_verify token (JWT_SECRET e) t3 = inr identity
                /\ forall m pth b next d',
                     authenticateToken e t3 next
                       (mk_request m pth (Some ("Bearer " ++ token)) b) d'
                     = next (set_user (mk_request m pth (Some ("Bearer " ++ token)) b)
                                      identity) d'.
Proof.
  intros K Eu Ep Lu Lp Hnew.
  pose proof (userSchema_ok _ _ _ Eu Ep Lu Lp) as Hparse.
  pose (row := {| u_id := users_seq d + 1; u_username := u;
                  u_password := bcrypt_hash p salt |}).
  exists (users_insert d u (bcrypt_hash p salt)), row.
  assert (Hfind : users_where_username (users_insert d u (bcrypt_hash p salt)) u = Some row)
    by now apply users_where_username_insert.
  split; [|split; [exact Hfind|split; [reflexivity|]]].
  { rewrite app_register, register_cases. cbn [body mk_request].
    now rewrite Hparse, Hnew. }
  intros between t2 salt' auth'.
  pose (c := {| userId := u_id row; username := u; iat := t2; exp := t2 + one_hour |}).
  assert (Hsign : jwt_sign (u_id row) (u_username row) (JWT_SECRET e) one_hour t2
                  = inr (compact (payload_json c) (hs256 key (payload_json c))))
    by now apply jwt_sign_usable.
  exists (compact (payload_json c) (hs256 key (payload_json c))). split.
  - rewrite app_login. unfold login. cbn [body mk_request].
    rewrite Hparse, (run_keeps e between _ _ _ Hfind). cbn [u_password row].
    now rewrite bcrypt_compare_hash, Hsign.
  - intros t3 Hlt identity.
    assert (V : jwt_verify (compact (payload_json c) (hs256 key (payload_json c)))
                  (JWT_SECRET e) t3 = inr identity).
    { rewrite (jwt_verify_issued _ _ _ _ _ _ _ t3 K Hsign).
      destruct (Z.leb_spec (t2 + one_hour) t3); [lia|reflexivity]. }
    split; [exact V|].
    intros m pth b next d'. rewrite authenticateToken_spec.
    rewrite presented_Bearer by exact (issued_token_nonempty _ _ _ _ _ _ Hsign).
    now rewrite V.
Qed.

(** C2, as amended.  A request that does not match [POST /register] or
    [POST /login] never reaches a handler unchecked.  If it is a CORS
    preflight, [cors()] answers 204 before any route.  Otherwise it is
    handled by [authenticateToken] in front of the protected routes, and
    whatever handler stands behind the middleware: with no
    [Authorization] header, an empty one, or ["Bearer "] and nothing after
    it, the answer is 401 and the handler is not called; any other header
    value, with or without the [Bearer] scheme, is the token once its
    first ["Bearer "] is removed: when [jwt.verify] rejects it the answer
    is 403 and the handler is not called; only when it verifies is the
    handler called, on the request with the identity in [req.user]. *)
Theorem every_other_endpoint_gated (e : env) (now : Z) (salt : string) (req : request) (d : db) :
  is_open req = false ->
  (is_preflight req = true -> app e now salt req d = (Respond 204 None, d))
  /\ (is_preflight req = false ->
      app e now salt req d
      = authenticateToken e now (chain protected_routes finalhandler) req d)
  /\ forall next : handler,
       (authorization req = None \/ authorization req = Some ""
        \/ authorization req = Some "Bearer " ->
        authenticateToken e now next req d
        = (Respond 401 (message "Access denied, token missing"), d))
       /\ (forall h err,
             authorization req = Some h -> h <> "" -> h <> "Bearer " ->
             jwt_verify (replace "Bearer " "" h) (JWT_SECRET e) now = inl err ->
             authenticateToken e now next req d
             = (Respond 403 (message "Invalid token"), d))
       /\ (forall h identity,
             authorization req = Some h -> h <> "" -> h <> "Bearer " ->
             jwt_verify (replace "Bearer " "" h) (JWT_SECRET e) now = inr identity ->
             authenticateToken e now next req d = next (set_user req identity) d
             /\ user (set_user req identity) = Some identity).
Proof.
  intros Ho. split; [|split].
  - unfold is_preflight, app. cbn [List.app chain]. unfold cors at 1.
    destruct (method req); try discriminate. reflexivity.
  - intros Hp. now apply app_gated.
  - intros next. split; [|split].
    + unfold authenticateToken. now intros [->|[->| ->]].
    + intros h err A N1 N2. unfold authenticateToken. rewrite A. cbn [option_map].
      destruct (replace "Bearer " "" h) as [|c r] eqn:E;
        [destruct (replace_empty _ E); contradiction|].
      now intros ->.
    + intros h identity A N1 N2. unfold authenticateToken. rewrite A. cbn [option_map].
      destruct (replace "Bearer " "" h) as [|c r] eqn:E;
        [destruct (replace_empty _ E); contradiction|].
      now intros ->.
Qed.

(** C3, as amended.  For login requests that pass the schema: a registered
    username with a password that does not match its hash, and a username
    that is not registered, get the same answer, 400 with the message
    [Invalid credentials], and the database is left as it was. *)
Theorem invalid_credentials_same_response
    (e : env) (now now' : Z) (salt salt' : string) (auth auth' : option string)
    (b b' : json) (u p u' p' : string) (row : user_row) (d : db) :
  userSchema b = inr (u, p) ->
  userSchema b' = inr (u', p') ->
  users_where_username d u = Some row ->
  bcrypt_compare p (u_password row) = false ->
  users_where_username d u' = None ->
  app e now salt (mk_request POST ["login"] auth b) d
    = (Respond 400 (message "Invalid credentials"), d)
  /\ app e now' salt' (mk_request POST ["login"] auth' b') d
    = (Respond 400 (message "Invalid credentials"), d).
Proof.
  intros Hb Hb' Hrow Hcmp Hnone. rewrite !app_login. unfold login.
  cbn [body mk_request]. rewrite Hb, Hb', Hrow, Hcmp, Hnone. split; reflexivity.
Qed.

(** C4, as amended.  Start-up does not look at the signing secret: for
    every environment the process ends up listening, and [POST /register]
    is served whether or not the secret is set.  The secret is looked up
    while a request is handled: without a usable secret the process
    serves [POST /login] too, and never answers it with a token. *)
Theorem secret_read_per_request (e : env) :
  (exists port, boot e = Listening port)
  /\ (forall now salt auth b d,
        serve e now salt (mk_request POST ["register"] auth b) d
        = Some (register salt (mk_request POST ["register"] auth b) d))
  /\ (usable_secret (JWT_SECRET e) = None ->
      forall now salt auth b d,
        exists r,
          serve e now salt (mk_request POST ["login"] auth b) d = Some r
          /\ status_of (fst r) <> Some 200
          /\ snd r = d).
Proof.
  split; [eexists; reflexivity|]. split; [reflexivity|].
  intros K now salt auth b d. unfold serve, boot. eexists. split; [reflexivity|].
  rewrite app_login. unfold login. cbn [body mk_request].
  destruct (userSchema b) as [issues|[u p]]; [split; [discriminate|reflexivity]|].
  destruct (users_where_username d u) as [row|]; [|split; [discriminate|reflexivity]].
  destruct (bcrypt_compare p (u_password row)); [|split; [discriminate|reflexivity]].
  unfold jwt_sign. rewrite K. split; [discriminate|reflexivity].
Qed.

(** C5, as amended.  After a registration that succeeded with 201, and
    after whatever other requests were served in between, a second
    [POST /register] with the same username is answered 400 and leaves
    the database as it was, whatever password it carries: with the message
    [Username already taken] when the password is a string of at least six
    characters, and with the [errors] of the schema otherwise. *)
Theorem second_registration_rejected
    (e : env) (t1 : Z) (salt1 : string) (auth1 : option string)
    (b1 : json) (fields2 : list (string * json)) (u p1 : string) (d : db) :
  userSchema b1 = inr (u, p1) ->
  users_where_username d u = None ->
  obj_get fields2 "username" = Some (JStr u) ->
  exists d1,
    app e t1 salt1 (mk_request POST ["register"] auth1 b1) d
      = (Respond 201 (message "User registered successfully"), d1)
    /\ forall (between : list turn) (t2 : Z) (salt2 : string) (auth2 : option string),
         (forall p2,
             obj_get fields2 "password" = Some (JStr p2) ->
             (6 <= String.length p2)%nat ->
             app e t2 salt2 (mk_request POST ["register"] auth2 (JObj fields2))
               (run e between d1)
             = (Respond 400 (message "Username already taken"), run e between d1))
         /\ (forall issues,
               userSchema (JObj fields2) = inl issues ->
               app e t2 salt2 (mk_request POST ["register"] auth2 (JObj fields2))
                 (run e between d1)
               = (Respond 400 (Some (JObj [("errors", format issues)])), run e between d1)).
Proof.
  intros Hb Hnew Eu. exists (users_insert d u (bcrypt_hash p1 salt1)).
  rewrite app_register, register_cases. cbn [body mk_request].
  rewrite Hb, Hnew. split; [reflexivity|].
  intros between t2 salt2 auth2.
  rewrite !app_register, !register_cases. cbn [body mk_request]. split.
  - intros p2 Ep L2.
    destruct (userSchema_inv _ _ _ Hb) as (f1 & _ & _ & _ & Lu & _).
    rewrite (userSchema_ok _ _ _ Eu Ep Lu L2).
    now rewrite (run_keeps e between _ _ _ (users_where_username_insert _ _ _ Hnew)).
  - now intros issues ->.
Qed.

(** C6, as amended.  A registration that succeeds is answered 201 with
    the fixed body [{message: "User registered successfully"}]: the body
    has no [id] and no [username].  No register response shows the
    password or its hash: the response is the same for any two passwords
    on the same side of the six-character bound, and for any two salts. *)
Theorem register_response_echoes_nothing
    (e : env) (now : Z) (auth : option string) (d : db) :
  (forall salt b o d',
      app e now salt (mk_request POST ["register"] auth b) d = (o, d') ->
      status_of o = Some 201 ->
      o = Respond 201 (Some (JObj [("message", JStr "User registered successfully")])))
  /\ (forall ju p1 p2 salt1 salt2,
        (String.length p1 <? 6)%nat = (String.length p2 <? 6)%nat ->
        fst (app e now salt1
               (mk_request POST ["register"] auth
                  (JObj [("username", ju); ("password", JStr p1)])) d)
        = fst (app e now salt2
                 (mk_request POST ["register"] auth
                    (JObj [("username", ju); ("password", JStr p2)])) d)).
Proof.
  split.
  - intros salt b o d'. rewrite app_register, register_cases. cbn [body mk_request].
    destruct (userSchema b) as [issues|[u p]].
    + intros E; injection E as <- <-. discriminate.
    + destruct (users_where_username d u); intros E; injection E as <- <-;
        [discriminate|reflexivity].
  - intros ju p1 p2 salt1 salt2 L. rewrite !app_register, !register_cases.
    cbn [body mk_request]. unfold userSchema, z_string_min. cbn [obj_get String.eqb Ascii.eqb Bool.eqb].
    rewrite <- L.
    destruct ju as [| | |su| |]; cbn [type_of issues_of];
      try (destruct (String.length p1 <? 6)%nat; reflexivity).
    destruct (String.length su <? 1)%nat; destruct (String.length p1 <? 6)%nat;
      try reflexivity.
    now destruct (users_where_username d su).
Qed.

(** C8.  The token a login at clock [t2] returns expires at [t2 + 3600]:
    at every clock before that [jwt.verify] accepts it, with the same
    identity; at every clock from then on [jwt.verify] fails with
    [Expired], which is not [InvalidSignature], and the gate answers
    403. *)
Theorem token_expires_after_one_hour
    (e : env) (t2 : Z) (salt : string) (auth : option string) (b : json) (d d' : db)
    (token : string) :
  app e t2 salt (mk_request POST ["login"] auth b) d
    = (Respond 200 (Some (JObj [("token", JStr token)])), d') ->
  exists identity,
    iat identity = t2 /\ exp identity = t2 + 3600
    /\ (forall now, now < t2 + 3600 ->
          jwt_verify token (JWT_SECRET e) now = inr identity)
    /\ (forall now, t2 + 3600 <= now ->
          jwt_verify token (JWT_SECRET e) now = inl Expired
          /\ jwt_verify token (JWT_SECRET e) now <> inl InvalidSignature
          /\ forall next req d0,
               presented_token req = Some token ->
               authenticateToken e now next req d0
               = (Respond 403 (message "Invalid token"), d0)).
Proof.
  rewrite app_login. intros L.
  destruct (login_token_inv _ _ _ _ _ _ L) as (row & key & _ & K & S).
  eexists. split; [|split; [|split]]; cycle 2.
  - intros now Hlt. rewrite (jwt_verify_issued _ _ _ _ _ _ _ now K S).
    destruct (Z.leb_spec (t2 + one_hour) now); [unfold one_hour in *; lia|reflexivity].
  - intros now Hge.
    assert (V : jwt_verify token (JWT_SECRET e) now = inl Expired).
    { rewrite (jwt_verify_issued _ _ _ _ _ _ _ now K S).
      destruct (Z.leb_spec (t2 + one_hour) now); [reflexivity|unfold one_hour in *; lia]. }
    split; [exact V|]. split; [rewrite V; discriminate|].
    intros next req d0 Ht. now rewrite authenticateToken_spec, Ht, V.
  - reflexivity.
  - reflexivity.
Qed.

(** C9.  A [POST /register] that fails leaves the database as it was.
    It fails on the schema, answering 400 with [errors], or on a username
    that is taken, answering 400 with a message; in both the handler
    returns before the hash and the insert.  The database changes only
    when the answer is 201, and then by one inserted row. *)
Theorem failed_register_changes_nothing
    (e : env) (now : Z) (salt : string) (auth : option string) (b : json) (d : db) :
  (forall issues,
      userSchema b = inl issues ->
      app e now salt (mk_request POST ["register"] auth b) d
      = (Respond 400 (Some (JObj [("errors", format issues)])), d))
  /\ (forall u p row,
        userSchema b = inr (u, p) ->
        users_where_username d u = Some row ->
        app e now salt (mk_request POST ["register"] auth b) d
        = (Respond 400 (message "Username already taken"), d))
  /\ (forall o d',
        app e now salt (mk_request POST ["register"] auth b) d = (o, d') ->
        status_of o <> Some 201 ->
        d' = d)
  /\ (forall o d',
        app e now salt (mk_request POST ["register"] auth b) d = (o, d') ->
        status_of o = Some 201 ->
        exists u p,
          userSchema b = inr (u, p)
          /\ users_where_username d u = None
          /\ d' = users_insert d u (bcrypt_hash p salt)).
Proof.
  rewrite app_register, register_cases. cbn [body mk_request].
  split; [|split; [|split]].
  - now intros issues ->.
  - now intros u p row -> ->.
  - intros o d'. destruct (userSchema b) as [issues|[u p]].
    + now intros E; injection E as <- <-.
    + destruct (users_where_username d u); intros E; injection E as <- <-;
        [reflexivity|]. intros N. now contradiction N.
  - intros o d'. destruct (userSchema b) as [issues|[u p]].
    + intros E; injection E as <- <-. discriminate.
    + destruct (users_where_username d u) eqn:F; intros E; injection E as <- <-;
        [discriminate|]. intros _. now exists u, p.
Qed.

(** C10.  [POST /login] parses the body with the schema [POST /register]
    uses.  A body whose password is a string shorter than six characters
    fails the schema with a [too_small] issue on [password]; login answers
    400 with the [errors] of the schema, the same for every database (no
    user is looked up), the same as register answers, and never the
    [Invalid credentials] message. *)
Theorem login_short_password_rejected (fields : list (string * json)) (p : string) :
  obj_get fields "password" = Some (JStr p) ->
  (String.length p < 6)%nat ->
  exists issues,
    userSchema (JObj fields) = inl issues
    /\ In (too_small ["password"] 6 None) issues
    /\ forall e now salt auth d,
         app e now salt (mk_request POST ["login"] auth (JObj fields)) d
         = (Respond 400 (Some (JObj [("errors", format issues)])), d)
         /\ app e now salt (mk_request POST ["register"] auth (JObj fields)) d
         = (Respond 400 (Some (JObj [("errors", format issues)])), d)
         /\ fst (app e now salt (mk_request POST ["login"] auth (JObj fields)) d)
            <> Respond 400 (message "Invalid credentials").
Proof.
  intros Ep Lp.
  exists (issues_of (z_string_min ["username"] 1 None (obj_get fields "username"))
          ++ [too_small ["password"] 6 None])%list.
  assert (S : userSchema (JObj fields)
              = inl (issues_of (z_string_min ["username"] 1 None (obj_get fields "username"))
                     ++ [too_small ["password"] 6 None])%list).
  { unfold userSchema. rewrite Ep.
    generalize (z_string_min ["username"] 1 None (obj_get fields "username")) as ur.
    intros ur. unfold z_string_min.
    destruct (Nat.ltb_spec (String.length p) 6); [|lia].
    now destruct ur. }
  split; [exact S|]. split; [apply in_or_app; right; now left|].
  intros e now salt auth d. rewrite app_login, app_register, register_cases.
  unfold login. cbn [body mk_request]. rewrite S. cbn [fst].
  repeat split. discriminate.
Qed.

End Claims.

(** * The whole stack: what a request can write *)

Section Routes.
Context {zod : Zod} {bcrypt : Bcrypt} {jws : Jws} {sqlite : Sqlite}.

Lemma handles_inv m m' : handles m m' = true -> m' = m \/ (m = GET /\ m' = HEAD).
Proof. destruct m, m'; simpl; intros E; try discriminate E; auto. Qed.

(** *** A relation every layer obeys is obeyed by the stack *)

Section Obeys.
Variable R : request -> db -> result -> Prop.

Lemma obeys_route m p h next :
  (forall req d, handles m (method req) = true -> matches_path p (path req) = true ->
                 R req d (h req d)) ->
  obeys R next -> obeys R (route m p h next).
Proof.
  intros Hh Hn req d. unfold route.
  destruct (handles m (method req)) eqn:M; cbn [andb]; [|apply Hn].
  destruct (matches_path p (path req)) eqn:P; [|apply Hn].
  now apply Hh.
Qed.

Lemma obeys_route_id m p h next :
  (forall id req d, handles m (method req) = true ->
                    matches_path_id p (path req) = Some id -> R req d (h id req d)) ->
  obeys R next -> obeys R (route_id m p h next).
Proof.
  intros Hh Hn req d. unfold route_id.
  destruct (matches_path_id p (path req)) as [id|] eqn:P; [|apply Hn].
  destruct (handles m (method req)) eqn:M; [|apply Hn].
  now apply Hh.
Qed.

Lemma obeys_cors next :
  (forall req d, method req = OPTIONS -> R req d (Respond 204 None, d)) ->
  obeys R next -> obeys R (cors next).
Proof.
  intros Ho Hn req d. unfold cors.
  destruct (method req) eqn:M; try apply Hn. now apply Ho.
Qed.

Lemma obeys_authenticateToken e now next :
  (forall req d, R req d (Respond 401 (message "Access denied, token missing"), d)) ->
  (forall req d, R req d (Respond 403 (message "Invalid token"), d)) ->
  (forall req u d r, R (set_user req u) d r -> R req d r) ->
  obeys R next -> obeys R (authenticateToken e now next).
Proof.
  intros H401 H403 Hu Hn req d. rewrite authenticateToken_spec.
  destruct (presented_token req) as [t|]; [|apply H401].
  destruct (jwt_verify t (JWT_SECRET e) now) as [err|u]; [apply H403|].
  apply Hu with u. apply Hn.
Qed.

Lemma obeys_app e now salt :
  (forall req d, method req = OPTIONS -> R req d (Respond 204 None, d)) ->
  (forall req d, method req = POST -> matches_path "register" (path req) = true ->
                 R req d (register salt req d)) ->
  (forall req d, method req = POST -> matches_path "login" (path req) = true ->
                 R req d (login e now req d)) ->
  (forall req d, R req d (Respond 401 (message "Access denied, token missing"), d)) ->
  (forall req d, R req d (Respond 403 (message "Invalid token"), d)) ->
  (forall req u d r, R (set_user req u) d r -> R req d r) ->
  (forall req d, R req d (get_items req d)) ->
  (forall id req d, R req d (get_item id req d)) ->
  (forall req d, R req d (get_users req d)) ->
  (forall req d, R req d (get_profile req d)) ->
  (forall req d, method req = POST -> matches_path "items" (path req) = true ->
                 R req d (post_items req d)) ->
  (forall id req d, method req = PUT -> matches_path_id "items" (path req) = Some id ->
                    R req d (put_item id req d)) ->
  (forall id req d, method req = DELETE -> matches_path_id "items" (path req) = Some id ->
                    R req d (delete_item id req d)) ->
  (forall req d, R req d (finalhandler req d)) ->
  obeys R (app e now salt).
Proof.
  intros Hopt Hreg Hlog H401 H403 Hu Hgi Hg1 Hgu Hgp Hpi Hpu Hde Hfin.
  unfold app, open_routes, protected_routes. cbn [List.app chain].
  apply obeys_cors; [exact Hopt|]. unfold express_json.
  apply obeys_route.
  { intros req d M P. apply Hreg; [|exact P]. now destruct (handles_inv _ _ M) as [|[? _]]. }
  apply obeys_route.
  { intros req d M P. apply Hlog; [|exact P]. now destruct (handles_inv _ _ M) as [|[? _]]. }
  apply obeys_authenticateToken; [exact H401|exact H403|exact Hu|].
  apply obeys_route; [intros req d _ _; apply Hgi|].
  apply obeys_route_id; [intros id req d _ _; apply Hg1|].
  apply obeys_route; [intros req d _ _; apply Hgu|].
  apply obeys_route; [intros req d _ _; apply Hgp|].
  apply obeys_route.
  { intros req d M P. apply Hpi; [|exact P]. now destruct (handles_inv _ _ M) as [|[? _]]. }
  apply obeys_route_id.
  { intros id req d M P. apply Hpu; [|exact P]. now destruct (handles_inv _ _ M) as [|[? _]]. }
  apply obeys_route_id.
  { intros id req d M P. apply Hde; [|exact P]. now destruct (handles_inv _ _ M) as [|[? _]]. }
  exact Hfin.
Qed.

End Obeys.

Lemma writes_same req d o : writes req d (o, d).
Proof. now left. Qed.

Lemma writes_app e now salt : obeys writes (app e now salt).
Proof.
  apply obeys_app; try (intros; apply writes_same).
  - intros req d M P. rewrite register_cases.
    destruct (userSchema (body req)) as [issues|[u p]]; [apply writes_same|].
    destruct (users_where_username d u) eqn:F; [apply writes_same|].
    right; left. cbn [fst snd status_of]. repeat split; trivial.
    now exists u, (bcrypt_hash p salt).
  - intros req d M P. unfold login.
    destruct (userSchema (body req)) as [issues|[u p]]; [apply writes_same|].
    destruct (users_where_username d u) as [row|]; [|apply writes_same].
    destruct (bcrypt_compare p (u_password row)); [|apply writes_same].
    destruct (jwt_sign _ _ _ _ _); apply writes_same.
  - intros req u d r W. exact W.
  - intros id req d. unfold get_item.
    destruct (items_where_id d (integer_affinity id)); apply writes_same.
  - intros req d. unfold get_profile.
    destruct (user req) as [c|]; [|apply writes_same].
    destruct (users_where_id d (userId c)); apply writes_same.
  - intros req d M P. unfold post_items.
    destruct (itemSchema (body req)) as [issues|[n dsc]]; [apply writes_same|].
    right; right; left. cbn [items_insert fst snd status_of]. repeat split; trivial.
    now exists n, dsc.
  - intros id req d M P. unfold put_item.
    destruct (itemSchema (body req)) as [issues|[n dsc]]; [apply writes_same|].
    destruct (items_where_id d (integer_affinity id)) as [item|]; [|apply writes_same].
    right; right; right; left. cbn [fst snd status_of]. repeat split; trivial.
    + now exists id.
    + now exists (i_id item), n, dsc.
  - intros id req d M P. unfold delete_item.
    destruct (items_where_id d (integer_affinity id)) as [item|]; [|apply writes_same].
    right; right; right; right. cbn [fst snd status_of]. repeat split; trivial.
    + now exists id.
    + now exists (i_id item).
Qed.

(** *** Consistency is kept *)

Lemma StronglySorted_snoc l y :
  StronglySorted Z.lt l -> Forall (fun x => x < y) l -> StronglySorted Z.lt (l ++ [y])%list.
Proof.
  induction 1 as [|a l S IH F]; intros B; cbn [List.app].
  - repeat constructor.
  - inversion B as [|? ? Ha Hl]; subst. constructor; [now apply IH|].
    apply Forall_app. split; [exact F|now constructor].
Qed.

Lemma StronglySorted_map_filter {A} (g : A -> Z) (keep : A -> bool) l :
  StronglySorted Z.lt (map g l) -> StronglySorted Z.lt (map g (filter keep l)).
Proof.
  induction l as [|a l IH]; cbn [map filter]; intros S; [constructor|].
  inversion S as [|? ? S' F]; subst.
  destruct (keep a); cbn [map]; [|now apply IH].
  constructor; [now apply IH|].
  rewrite Forall_map in *. apply (incl_Forall (incl_filter keep l) F).
Qed.

Lemma StronglySorted_lt_NoDup l : StronglySorted Z.lt l -> NoDup l.
Proof.
  induction 1 as [|a l S IH F]; constructor; [|exact IH].
  intros I. rewrite Forall_forall in F. specialize (F a I). lia.
Qed.

Lemma username_not_found d u :
  users_where_username d u = None -> ~ In u (map u_username (users d)).
Proof.
  unfold users_where_username. intros F I.
  apply in_map_iff in I as (r & E & I).
  pose proof (find_none _ _ F r I) as N. cbv beta in N.
  rewrite E, String.eqb_refl in N. discriminate.
Qed.

Lemma consistent_users_insert d u h :
  consistent d -> users_where_username d u = None -> consistent (users_insert d u h).
Proof.
  intros [Su Bu Nu Si Bi] F. constructor; cbn [users_insert users users_seq items items_seq];
    try assumption.
  - rewrite map_app. cbn [map u_id]. apply StronglySorted_snoc; [exact Su|].
    rewrite Forall_map. eapply Forall_impl; [|exact Bu]. cbv beta. intros r L. lia.
  - apply Forall_app. split.
    + eapply Forall_impl; [|exact Bu]. cbv beta. intros r L. lia.
    + repeat constructor. cbn [u_id]. lia.
  - rewrite map_app. cbn [map u_username].
    apply (Permutation_NoDup (Permutation_cons_append _ _)).
    constructor; [now apply username_not_found|exact Nu].
Qed.

Lemma consistent_items_insert d n dsc :
  consistent d -> consistent (snd (items_insert d n dsc)).
Proof.
  intros [Su Bu Nu Si Bi]. constructor; cbn [items_insert snd users users_seq items items_seq];
    try assumption.
  - rewrite map_app. cbn [map i_id]. apply StronglySorted_snoc; [exact Si|].
    rewrite Forall_map. eapply Forall_impl; [|exact Bi]. cbv beta. intros r L. lia.
  - apply Forall_app. split.
    + eapply Forall_impl; [|exact Bi]. cbv beta. intros r L. lia.
    + repeat constructor. cbn [i_id]. lia.
Qed.

Lemma items_update_ids d k n dsc : map i_id (items (items_update d k n dsc)) = map i_id (items d).
Proof.
  cbn [items_update items]. rewrite map_map. apply map_ext.
  intros r. now destruct (i_id r =? k).
Qed.

Lemma consistent_items_update d k n dsc :
  consistent d -> consistent (items_update d k n dsc).
Proof.
  intros [Su Bu Nu Si Bi]. constructor; try assumption.
  - now rewrite items_update_ids.
  - change (Forall (fun r => i_id r <= items_seq d) (items (items_update d k n dsc))).
    rewrite <- Forall_map with (f := i_id) (P := fun i => i <= items_seq d) in *.
    now rewrite items_update_ids.
Qed.

Lemma consistent_items_del d k : consistent d -> consistent (items_del d k).
Proof.
  intros [Su Bu Nu Si Bi]. constructor; cbn [items_del users users_seq items items_seq];
    try assumption.
  - now apply StronglySorted_map_filter.
  - exact (incl_Forall (incl_filter _ _) Bi).
Qed.

Lemma writes_consistent req d r : writes req d r -> consistent d -> consistent (snd r).
Proof.
  intros [E|[(_ & _ & _ & u & h & F & E)|[(_ & _ & _ & n & dsc & E)|
          [(_ & _ & _ & k & n & dsc & E)|(_ & _ & _ & k & E)]]]] C; rewrite E.
  - exact C.
  - now apply consistent_users_insert.
  - now apply consistent_items_insert.
  - now apply consistent_items_update.
  - now apply consistent_items_del.
Qed.

Lemma app_consistent e now salt req d :
  consistent d -> consistent (snd (app e now salt req d)).
Proof. exact (writes_consistent _ _ _ (writes_app e now salt req d)). Qed.

Lemma run_consistent e turns d : consistent d -> consistent (run e turns d).
Proof.
  revert d. induction turns as [|t rest IH]; intros d C; [exact C|].
  cbn [run]. now apply IH, app_consistent.
Qed.

Lemma writes_counters req d r :
  writes req d r -> users_seq d <= users_seq (snd r) /\ items_seq d <= items_seq (snd r).
Proof.
  intros [E|[(_ & _ & _ & u & h & F & E)|[(_ & _ & _ & n & dsc & E)|
          [(_ & _ & _ & k & n & dsc & E)|(_ & _ & _ & k & E)]]]]; rewrite E;
    cbn [users_insert items_insert items_update items_del snd users_seq items_seq]; lia.
Qed.

Lemma run_counters e turns d :
  users_seq d <= users_seq (run e turns d) /\ items_seq d <= items_seq (run e turns d).
Proof.
  revert d. induction turns as [|t rest IH]; intros d; cbn [run]; [lia|].
  pose proof (writes_counters _ _ _ (writes_app e (at_clock t) (with_salt t) (the_request t) d)).
  specialize (IH (snd (app e (at_clock t) (with_salt t) (the_request t) d))). lia.
Qed.

(** *** Requests that carry a token that verifies *)

Lemma verified_nonempty e now t u : jwt_verify t (JWT_SECRET e) now = inr u -> t <> "".
Proof.
  intros V ->. unfold jwt_verify in V. rewrite parts_empty in V. discriminate.
Qed.

Lemma app_bearer e now salt m p t b u d :
  jwt_verify t (JWT_SECRET e) now = inr u ->
  is_preflight (mk_request m p (Some ("Bearer " ++ t)) b) = false ->
  is_open (mk_request m p (Some ("Bearer " ++ t)) b) = false ->
  app e now salt (mk_request m p (Some ("Bearer " ++ t)) b) d
  = chain protected_routes finalhandler
      (set_user (mk_request m p (Some ("Bearer " ++ t)) b) u) d.
Proof.
  intros V Hp Ho. rewrite app_gated, authenticateToken_spec by assumption.
  rewrite presented_Bearer by exact (verified_nonempty _ _ _ _ V).
  now rewrite V.
Qed.

Lemma matches_items_not_open pth :
  matches_path "items" pth = true ->
  matches_path "register" pth = false /\ matches_path "login" pth = false.
Proof.
  unfold matches_path, segment_eqb.
  destruct pth as [|p' [|[|c q] [|r rest]]]; try discriminate;
    intros E; apply String.eqb_eq in E; rewrite <- E; split; reflexivity.
Qed.

Lemma app_unverified e now salt req d :
  is_preflight req = false -> is_open req = false ->
  (presented_token req = None
   \/ exists t err, presented_token req = Some t
                    /\ jwt_verify t (JWT_SECRET e) now = inl err) ->
  snd (app e now salt req d) = d.
Proof.
  intros Hp Ho U. rewrite app_gated, authenticateToken_spec by assumption.
  destruct U as [->|(t & err & -> & ->)]; reflexivity.
Qed.

(** X1.  Served one after the other, requests keep the database
    consistent: no two users share a username or an id, no two items
    share an id, and no id exceeds its table's counter.  [/register]
    inserts only after it looked the username up and found none, and ids
    come from the counters. *)
Theorem usernames_and_ids_stay_distinct (e : env) (turns : list turn) (d : db) :
  consistent d ->
  consistent (run e turns d)
  /\ NoDup (map u_username (users (run e turns d)))
  /\ NoDup (map u_id (users (run e turns d)))
  /\ NoDup (map i_id (items (run e turns d))).
Proof.
  intros C. pose proof (run_consistent e turns d C) as [Su Bu Nu Si Bi].
  split; [now constructor|]. split; [exact Nu|].
  split; now apply StronglySorted_lt_NoDup.
Qed.

(** X2.  Whatever the request, the database it leaves is the one it
    found, unless the request matches [POST /register] and is answered
    201 (one user inserted, under a username that was not there), matches
    [POST /items] and is answered 201 (one item inserted), matches
    [PUT /items/:id] and is answered 200 (one update) or matches
    [DELETE /items/:id] and is answered 200 (one delete); a path matches
    as Express matches it, whatever the case of its letters and with or
    without a slash at its end.  So no [GET], no login, and no request
    answered with an error writes anything. *)
Theorem database_written_only_by
    (e : env) (now : Z) (salt : string) (req : request) (d : db) :
  let r := app e now salt req d in
  snd r = d
  \/ (method req = POST /\ matches_path "register" (path req) = true
      /\ status_of (fst r) = Some 201
      /\ exists u h, users_where_username d u = None /\ snd r = users_insert d u h)
  \/ (method req = POST /\ matches_path "items" (path req) = true
      /\ status_of (fst r) = Some 201
      /\ exists n dsc, snd r = snd (items_insert d n dsc))
  \/ (method req = PUT /\ (exists id, matches_path_id "items" (path req) = Some id)
      /\ status_of (fst r) = Some 200
      /\ exists k n dsc, snd r = items_update d k n dsc)
  \/ (method req = DELETE /\ (exists id, matches_path_id "items" (path req) = Some id)
      /\ status_of (fst r) = Some 200
      /\ exists k, snd r = items_del d k).
Proof. exact (writes_app e now salt req d). Qed.

(** X3.  A request that presents no token, or a token that does not
    verify, leaves the [items] table and its counter as they were,
    whatever its method, path and body. *)
Theorem items_need_a_verified_token
    (e : env) (now : Z) (salt : string) (req : request) (d : db) :
  (presented_token req = None
   \/ exists t err, presented_token req = Some t
                    /\ jwt_verify t (JWT_SECRET e) now = inl err) ->
  items (snd (app e now salt req d)) = items d
  /\ items_seq (snd (app e now salt req d)) = items_seq d.
Proof.
  intros U.
  destruct (writes_app e now salt req d)
    as [E|[(_ & _ & _ & u & h & F & E)|[(M & P & _)|[(M & (id & P) & _)|(M & (id & P) & _)]]]].
  - now rewrite E.
  - now rewrite E.
  - rewrite app_unverified; auto; unfold is_preflight, is_open; rewrite M;
      [reflexivity|]. now destruct (matches_items_not_open _ P) as [-> ->].
  - rewrite app_unverified; auto; unfold is_preflight, is_open; now rewrite M.
  - rewrite app_unverified; auto; unfold is_preflight, is_open; now rewrite M.
Qed.

(** *** Lookups in [items] after a write *)

Lemma find_none_all {A} (f : A -> bool) l :
  (forall x, In x l -> f x = false) -> find f l = None.
Proof.
  intros N. destruct (find f l) as [x|] eqn:F; [|reflexivity].
  apply find_some in F as [I T]. rewrite (N x I) in T. discriminate.
Qed.

Lemma items_where_id_inserted d n dsc :
  consistent d ->
  items_where_id (snd (items_insert d n dsc)) (Some (items_seq d + 1))
  = Some {| i_id := items_seq d + 1; i_name := n; i_description := dsc |}.
Proof.
  intros C. cbn [items_insert snd items_where_id items].
  rewrite find_app_none.
  - cbn [find i_id]. now rewrite Z.eqb_refl.
  - apply find_none_all. intros r I.
    pose proof (item_ids_issued d C) as B. rewrite Forall_forall in B.
    specialize (B r I). cbv beta. apply Z.eqb_neq. lia.
Qed.

Lemma items_where_id_updated d k n dsc k' :
  items_where_id (items_update d k n dsc) (Some k')
  = option_map (fun r => if i_id r =? k
                         then {| i_id := i_id r; i_name := n;
                                 i_description := match dsc with
                                                  | Some s => Some s
                                                  | None => i_description r
                                                  end |}
                         else r)
               (items_where_id d (Some k')).
Proof.
  cbn [items_where_id items_update items].
  induction (items d) as [|a l IH]; cbn [map find]; [reflexivity|].
  destruct (i_id a =? k) eqn:K; cbn [i_id]; destruct (i_id a =? k') eqn:K';
    cbn [option_map]; try rewrite K; try reflexivity; exact IH.
Qed.

Lemma items_where_id_deleted d k k' :
  items_where_id (items_del d k) (Some k')
  = if k' =? k then None else items_where_id d (Some k').
Proof.
  cbn [items_where_id items_del items].
  induction (items d) as [|a l IH]; cbn [filter find]; [now destruct (k' =? k)|].
  destruct (Z.eqb_spec (i_id a) k) as [Ek|Nk]; cbn [negb find].
  - rewrite IH. destruct (Z.eqb_spec k' k) as [->|N]; [reflexivity|].
    destruct (Z.eqb_spec (i_id a) k'); [lia|reflexivity].
  - destruct (Z.eqb_spec (i_id a) k') as [Ek'|Nk']; [|exact IH].
    destruct (Z.eqb_spec k' k); [lia|reflexivity].
Qed.

Lemma items_where_id_found d k item :
  items_where_id d (Some k) = Some item -> i_id item = k.
Proof.
  cbn [items_where_id]. intros F. apply find_some in F as [_ E]. now apply Z.eqb_eq.
Qed.

(** *** The item routes, for a request whose token verifies *)

Lemma app_post_items e now salt t b u d :
  jwt_verify t (JWT_SECRET e) now = inr u ->
  app e now salt (mk_request POST ["items"] (Some ("Bearer " ++ t)) b) d
  = post_items (set_user (mk_request POST ["items"] (Some ("Bearer " ++ t)) b) u) d.
Proof.
  intros V. now rewrite (app_bearer e now salt POST ["items"] t b u d V eq_refl eq_refl).
Qed.

Lemma app_get_item e now salt t b u s d :
  jwt_verify t (JWT_SECRET e) now = inr u -> s <> "" ->
  app e now salt (mk_request GET ["items"; s] (Some ("Bearer " ++ t)) b) d
  = get_item s (set_user (mk_request GET ["items"; s] (Some ("Bearer " ++ t)) b) u) d.
Proof.
  intros V N. rewrite (app_bearer e now salt GET ["items"; s] t b u d V eq_refl eq_refl).
  destruct s; [contradiction|reflexivity].
Qed.

Lemma app_put_item e now salt t b u s d :
  jwt_verify t (JWT_SECRET e) now = inr u -> s <> "" ->
  app e now salt (mk_request PUT ["items"; s] (Some ("Bearer " ++ t)) b) d
  = put_item s (set_user (mk_request PUT ["items"; s] (Some ("Bearer " ++ t)) b) u) d.
Proof.
  intros V N. rewrite (app_bearer e now salt PUT ["items"; s] t b u d V eq_refl eq_refl).
  destruct s; [contradiction|reflexivity].
Qed.

Lemma app_delete_item e now salt t b u s d :
  jwt_verify t (JWT_SECRET e) now = inr u -> s <> "" ->
  app e now salt (mk_request DELETE ["items"; s] (Some ("Bearer " ++ t)) b) d
  = delete_item s (set_user (mk_request DELETE ["items"; s] (Some ("Bearer " ++ t)) b) u) d.
Proof.
  intros V N. rewrite (app_bearer e now salt DELETE ["items"; s] t b u d V eq_refl eq_refl).
  destruct s; [contradiction|reflexivity].
Qed.

(** X4.  In a consistent database, [POST /items] with a body the schema
    accepts answers 201 with the next id of the counter, the name and the
    description if there is one; a following [GET /items/:id] whose [:id]
    SQLite reads as that id answers 200 with that id and name, and the
    description or [null]. *)
Theorem created_item_is_read_back
    (e : env) (now now' : Z) (salt salt' : string) (t t' : string) (u u' : jwt_payload)
    (b b' : json) (n : string) (dsc : option string) (s : string) (d : db) :
  consistent d ->
  jwt_verify t (JWT_SECRET e) now = inr u ->
  jwt_verify t' (JWT_SECRET e) now' = inr u' ->
  itemSchema b = inr (n, dsc) ->
  integer_affinity s = Some (items_seq d + 1) ->
  s <> "" ->
  let d1 := snd (app e now salt (mk_request POST ["items"] (Some ("Bearer " ++ t)) b) d) in
  app e now salt (mk_request POST ["items"] (Some ("Bearer " ++ t)) b) d
    = (Respond 201 (Some (JObj ([("id", JNum (items_seq d + 1)); ("name", JStr n)]
                                ++ opt_field "description" dsc)%list)), d1)
  /\ app e now' salt' (mk_request GET ["items"; s] (Some ("Bearer " ++ t')) b') d1
    = (Respond 200 (Some (JObj [("id", JNum (items_seq d + 1)); ("name", JStr n);
                                ("description", match dsc with
                                                | Some x => JStr x
                                                | None => JNull
                                                end)])), d1).
Proof.
  intros C V V' S A N d1. subst d1.
  rewrite (app_post_items _ _ _ _ _ _ _ V), (app_get_item _ _ _ _ _ _ _ _ V' N).
  unfold post_items, get_item. cbn [body set_user mk_request]. rewrite S.
  cbn [items_insert fst snd]. split; [reflexivity|].
  rewrite A. change (items_where_id ?x (Some (items_seq d + 1)))
    with (items_where_id (snd (items_insert d n dsc)) (Some (items_seq d + 1))).
  now rewrite (items_where_id_inserted _ _ _ C).
Qed.

(** X5.  [PUT /items/:id] on an item that exists, with a body the schema
    accepts, answers 200 echoing the [:id] of the path as a string; a
    following [GET /items/:id] shows the new name, and the new description
    if the body had one, else the old one.  Items under other ids read as
    before, and the users are untouched. *)
Theorem updated_item_is_read_back
    (e : env) (now now' : Z) (salt salt' : string) (t t' : string) (u u' : jwt_payload)
    (b b' : json) (n : string) (dsc : option string) (s : string) (k : Z)
    (item : item_row) (d : db) :
  jwt_verify t (JWT_SECRET e) now = inr u ->
  jwt_verify t' (JWT_SECRET e) now' = inr u' ->
  itemSchema b = inr (n, dsc) ->
  integer_affinity s = Some k ->
  s <> "" ->
  items_where_id d (Some k) = Some item ->
  let d1 := snd (app e now salt (mk_request PUT ["items"; s] (Some ("Bearer " ++ t)) b) d) in
  app e now salt (mk_request PUT ["items"; s] (Some ("Bearer " ++ t)) b) d
    = (Respond 200 (Some (JObj ([("id", JStr s); ("name", JStr n)]
                                ++ opt_field "description" dsc)%list)), d1)
  /\ app e now' salt' (mk_request GET ["items"; s] (Some ("Bearer " ++ t')) b') d1
    = (Respond 200
         (Some (item_json {| i_id := k; i_name := n;
                             i_description := match dsc with
                                              | Some x => Some x
                                              | None => i_description item
                                              end |})), d1)
  /\ (forall k', k' <> k -> items_where_id d1 (Some k') = items_where_id d (Some k'))
  /\ users d1 = users d.
Proof.
  intros V V' S A N F d1. subst d1.
  rewrite (app_put_item _ _ _ _ _ _ _ _ V N), (app_get_item _ _ _ _ _ _ _ _ V' N).
  unfold put_item, get_item. cbn [body set_user mk_request]. rewrite S, A, F.
  cbn [fst snd]. pose proof (items_where_id_found _ _ _ F) as K. rewrite K.
  split; [reflexivity|]. split; [|split; [|reflexivity]].
  - rewrite items_where_id_updated, F. cbn [option_map]. now rewrite K, Z.eqb_refl.
  - intros k' Nk. rewrite items_where_id_updated.
    destruct (items_where_id d (Some k')) as [r|] eqn:F'; [|reflexivity].
    cbn [option_map]. rewrite (items_where_id_found _ _ _ F').
    now destruct (Z.eqb_spec k' k).
Qed.

(** X6.  [DELETE /items/:id] on an item that exists answers 200; after
    it, [GET /items/:id] and a second [DELETE /items/:id] both answer 404
    and change nothing.  Items under other ids read as before; the users
    and the counter of [items] are untouched. *)
Theorem deleted_item_is_gone
    (e : env) (now now' : Z) (salt salt' : string) (t t' : string) (u u' : jwt_payload)
    (b b' : json) (s : string) (k : Z) (item : item_row) (d : db) :
  jwt_verify t (JWT_SECRET e) now = inr u ->
  jwt_verify t' (JWT_SECRET e) now' = inr u' ->
  integer_affinity s = Some k ->
  s <> "" ->
  items_where_id d (Some k) = Some item ->
  let d1 := snd (app e now salt (mk_request DELETE ["items"; s] (Some ("Bearer " ++ t)) b) d) in
  app e now salt (mk_request DELETE ["items"; s] (Some ("Bearer " ++ t)) b) d
    = (Respond 200 (message "Item deleted"), d1)
  /\ app e now' salt' (mk_request GET ["items"; s] (Some ("Bearer " ++ t')) b') d1
    = (Respond 404 (message "Item not found"), d1)
  /\ app e now' salt' (mk_request DELETE ["items"; s] (Some ("Bearer " ++ t')) b') d1
    = (Respond 404 (message "Item not found"), d1)
  /\ (forall k', k' <> k -> items_where_id d1 (Some k') = items_where_id d (Some k'))
  /\ users d1 = users d
  /\ items_seq d1 = items_seq d.
Proof.
  intros V V' A N F d1. subst d1.
  rewrite (app_delete_item _ _ _ _ _ _ _ _ V N), (app_get_item _ _ _ _ _ _ _ _ V' N),
    (app_delete_item _ _ _ _ _ _ _ _ V' N).
  unfold delete_item, get_item. rewrite A, F. cbn [fst snd].
  pose proof (items_where_id_found _ _ _ F) as K. rewrite K.
  assert (G : items_where_id (items_del d k) (Some k) = None)
    by (rewrite items_where_id_deleted; now rewrite Z.eqb_refl).
  rewrite G. repeat split.
  intros k' Nk. rewrite items_where_id_deleted. now destruct (Z.eqb_spec k' k).
Qed.

(** X7.  Ids of items are not handed out twice.  In a consistent
    database, whatever requests are served meanwhile (deletes included),
    a later [POST /items] that the schema accepts answers 201 with an id
    above the id of every item there is now. *)
Theorem item_ids_are_not_reused
    (e : env) (now : Z) (salt : string) (t : string) (u : jwt_payload)
    (b : json) (n : string) (dsc : option string) (row : item_row) (d : db) :
  consistent d ->
  In row (items d) ->
  jwt_verify t (JWT_SECRET e) now = inr u ->
  itemSchema b = inr (n, dsc) ->
  forall between : list turn,
    exists id d',
      app e now salt (mk_request POST ["items"] (Some ("Bearer " ++ t)) b) (run e between d)
      = (Respond 201 (Some (JObj ([("id", JNum id); ("name", JStr n)]
                                  ++ opt_field "description" dsc)%list)), d')
      /\ i_id row < id.
Proof.
  intros C I V S between.
  exists (items_seq (run e between d) + 1),
         (snd (items_insert (run e between d) n dsc)).
  rewrite (app_post_items _ _ _ _ _ _ _ V). unfold post_items.
  cbn [body set_user mk_request]. rewrite S. cbn [items_insert snd]. split; [reflexivity|].
  pose proof (item_ids_issued d C) as B. rewrite Forall_forall in B. specialize (B row I).
  pose proof (run_counters e between d). cbv beta in B. lia.
Qed.

(** *** [GET /users]: the order of the rows *)

Lemma insert_by_id_perm r l : Permutation (insert_by_id r l) (r :: l).
Proof.
  induction l as [|a l IH]; cbn [insert_by_id]; [reflexivity|].
  destruct (u_id r <=? u_id a); [reflexivity|].
  rewrite IH. apply perm_swap.
Qed.

Lemma order_by_id_perm l : Permutation (order_by_id l) l.
Proof.
  induction l as [|a l IH]; [reflexivity|].
  change (order_by_id (a :: l)) with (insert_by_id a (order_by_id l)).
  rewrite insert_by_id_perm. now constructor.
Qed.

Lemma insert_by_id_sorted r l :
  StronglySorted (fun a b => u_id a <= u_id b) l ->
  StronglySorted (fun a b => u_id a <= u_id b) (insert_by_id r l).
Proof.
  induction 1 as [|a l S IH F]; cbn [insert_by_id]; [repeat constructor|].
  rewrite Forall_forall in F.
  destruct (Z.leb_spec (u_id r) (u_id a)) as [L|G].
  - constructor; [now constructor; [|apply Forall_forall]|].
    constructor; [exact L|]. apply Forall_forall. intros x I. specialize (F x I). lia.
  - constructor; [exact IH|]. apply Forall_forall. intros x I.
    apply (Permutation_in _ (insert_by_id_perm r l)) in I as [<-|I]; [lia|now apply F].
Qed.

Lemma order_by_id_sorted l :
  StronglySorted (fun a b => u_id a <= u_id b) (order_by_id l).
Proof.
  induction l as [|a l IH]; [constructor|].
  change (order_by_id (a :: l)) with (insert_by_id a (order_by_id l)).
  now apply insert_by_id_sorted.
Qed.

Lemma order_by_id_increasing l :
  StronglySorted Z.lt (map u_id l) -> order_by_id l = l.
Proof.
  induction l as [|a l IH]; cbn [map]; intros S; [reflexivity|].
  inversion S as [|? ? S' F]; subst.
  change (order_by_id (a :: l)) with (insert_by_id a (order_by_id l)).
  rewrite (IH S'). destruct l as [|b l]; [reflexivity|].
  cbn [insert_by_id]. cbn [map] in F. inversion F as [|? ? L _]; subst.
  destruct (Z.leb_spec (u_id a) (u_id b)); [reflexivity|lia].
Qed.

(** X8.  [GET /users] with a token that verifies answers 200 with one
    object per user, made of the id and the username and nothing else (no
    password hash), every user once, in ascending order of id; in a
    consistent database that is the order in which the users
    registered. *)
Theorem users_are_listed_by_id
    (e : env) (now : Z) (salt : string) (t : string) (u : jwt_payload) (b : json) (d : db) :
  jwt_verify t (JWT_SECRET e) now = inr u ->
  exists rows,
    app e now salt (mk_request GET ["users"] (Some ("Bearer " ++ t)) b) d
      = (Respond 200
           (Some (JArr (map (fun r => JObj [("id", JNum (u_id r));
                                            ("username", JStr (u_username r))]) rows))), d)
    /\ Permutation rows (users d)
    /\ StronglySorted (fun a b => u_id a <= u_id b) rows
    /\ (consistent d -> rows = users d).
Proof.
  intros V. exists (order_by_id (users d)).
  rewrite (app_bearer e now salt GET ["users"] t b u d V eq_refl eq_refl).
  split; [reflexivity|]. split; [apply order_by_id_perm|].
  split; [apply order_by_id_sorted|].
  intros C. apply order_by_id_increasing, (user_ids_increase d C).
Qed.

(** *** [GET /profile] *)

Lemma login_success_inv e now req d token d' :
  login e now req d = (Respond 200 (Some (JObj [("token", JStr token)])), d') ->
  exists u p row key,
    userSchema (body req) = inr (u, p)
    /\ users_where_username d u = Some row
    /\ usable_secret (JWT_SECRET e) = Some key
    /\ jwt_sign (u_id row) (u_username row) (JWT_SECRET e) one_hour now = inr token.
Proof.
  unfold login. destruct (userSchema (body req)) as [issues|[u p]]; [discriminate|].
  destruct (users_where_username d u) as [row|] eqn:F; [|discriminate].
  destruct (bcrypt_compare p (u_password row)); [|discriminate].
  destruct (jwt_sign _ _ _ _ _) as [err|tok] eqn:S; [discriminate|].
  intros E; injection E as -> <-.
  pose proof S as S'. unfold jwt_sign in S'.
  destruct (usable_secret (JWT_SECRET e)) as [key|] eqn:K; [|discriminate].
  now exists u, p, row, key.
Qed.

Lemma username_found d u row :
  users_where_username d u = Some row -> In row (users d) /\ u_username row = u.
Proof.
  unfold users_where_username. intros F. apply find_some in F as [I E].
  split; [exact I|now apply String.eqb_eq].
Qed.

Lemma find_unique_id l row :
  NoDup (map u_id l) -> In row l -> find (fun r => u_id r =? u_id row) l = Some row.
Proof.
  induction l as [|a l IH]; cbn [map find]; intros N I; [contradiction|].
  inversion N as [|? ? Na Nl]; subst.
  destruct I as [->|I]; [now rewrite Z.eqb_refl|].
  destruct (Z.eqb_spec (u_id a) (u_id row)) as [E|_]; [|now apply IH].
  exfalso. apply Na. rewrite E. now apply in_map.
Qed.

(** X9.  In a consistent database, the token a login returned opens the
    profile of the user who logged in: until the token expires, and
    whatever requests are served meanwhile, [GET /profile] with that
    token answers 200 with the username the login body carried. *)
Theorem profile_shows_who_logged_in
    (e : env) (t2 : Z) (salt : string) (auth : option string) (b : json) (d d' : db)
    (token : string) :
  consistent d ->
  app e t2 salt (mk_request POST ["login"] auth b) d
    = (Respond 200 (Some (JObj [("token", JStr token)])), d') ->
  exists u,
    field b "username" = Some (JStr u)
    /\ forall (later : list turn) (t3 : Z) (salt3 : string) (b3 : json),
         t3 < t2 + 3600 ->
         app e t3 salt3 (mk_request GET ["profile"] (Some ("Bearer " ++ token)) b3)
           (run e later d)
         = (Respond 200 (Some (JObj [("username", JStr u)])), run e later d).
Proof.
  intros C L. rewrite app_login in L.
  destruct (login_success_inv _ _ _ _ _ _ L) as (u & p & row & key & S & F & K & G).
  cbn [body mk_request] in S.
  destruct (userSchema_inv _ _ _ S) as (fields & -> & Eu & _).
  exists u. split; [exact Eu|].
  intros later t3 salt3 b3 Hlt.
  assert (V : jwt_verify token (JWT_SECRET e) t3
              = inr {| userId := u_id row; username := u_username row;
                       iat := t2; exp := t2 + one_hour |}).
  { rewrite (jwt_verify_issued _ _ _ _ _ _ _ t3 K G).
    destruct (Z.leb_spec (t2 + one_hour) t3); [unfold one_hour in *; lia|reflexivity]. }
  rewrite (app_bearer e t3 salt3 GET ["profile"] token b3 _ _ V eq_refl eq_refl).
  change (chain protected_routes finalhandler ?r ?x) with (get_profile r x).
  unfold get_profile. cbn [user set_user userId].
  pose proof (run_keeps e later _ _ _ F) as F'.
  destruct (username_found _ _ _ F') as [I E].
  pose proof (run_consistent e later d C) as C'.
  unfold users_where_id.
  rewrite (find_unique_id _ _ (StronglySorted_lt_NoDup _ (user_ids_increase _ C')) I).
  now rewrite E.
Qed.

(** *** Which headers count as no token *)

(** X10.  [authenticateToken] answers 401 exactly for three headers: no
    [Authorization] header, an empty one, and ["Bearer "] with nothing
    after it.  Every other header value is a token to verify, with or
    without the [Bearer] scheme: the answer is 403 when it does not
    verify, and otherwise the next handler runs. *)
Theorem token_missing_exactly_when
    (e : env) (now : Z) (next : handler) (req : request) (d : db) :
  (authorization req = None \/ authorization req = Some ""
   \/ authorization req = Some "Bearer " ->
   authenticateToken e now next req d
   = (Respond 401 (message "Access denied, token missing"), d))
  /\ (forall h,
        authorization req = Some h -> h <> "" -> h <> "Bearer " ->
        authenticateToken e now next req d
        = match jwt_verify (replace "Bearer " "" h) (JWT_SECRET e) now with
          | inl _ => (Respond 403 (message "Invalid token"), d)
          | inr u => next (set_user req u) d
          end).
Proof.
  split.
  - unfold authenticateToken. now intros [->|[->| ->]].
  - intros h A N1 N2. unfold authenticateToken. rewrite A. cbn [option_map].
    destruct (replace "Bearer " "" h) as [|c r] eqn:E; [|reflexivity].
    destruct (replace_empty _ E); contradiction.
Qed.

(** *** What [POST /items] accepts *)

Lemma itemSchema_ok fields n :
  obj_get fields "name" = Some (JStr n) ->
  (1 <= String.length n)%nat ->
  (obj_get fields "description" = None
   \/ exists s, obj_get fields "description" = Some (JStr s)) ->
  exists dsc, itemSchema (JObj fields) = inr (n, dsc).
Proof.
  intros En Ln D. unfold itemSchema, z_string_min, z_string_optional. rewrite En.
  destruct (Nat.ltb_spec (String.length n) 1); [lia|].
  destruct D as [->|(s & ->)]; eexists; reflexivity.
Qed.

Lemma itemSchema_inv b n dsc :
  itemSchema b = inr (n, dsc) ->
  exists fields,
    b = JObj fields
    /\ obj_get fields "name" = Some (JStr n)
    /\ (1 <= String.length n)%nat
    /\ (obj_get fields "description" = None
        \/ exists s, obj_get fields "description" = Some (JStr s)).
Proof.
  destruct b as [| | | | |fields]; try discriminate.
  unfold itemSchema, z_string_min, z_string_optional. intros E. exists fields.
  destruct (obj_get fields "name") as [[| | |sn| |]|];
    try (destruct (obj_get fields "description") as [[| | | | |]|]; discriminate).
  destruct (Nat.ltb_spec (String.length sn) 1);
    [destruct (obj_get fields "description") as [[| | | | |]|]; discriminate|].
  destruct (obj_get fields "description") as [[| | |sd| |]|]; try discriminate;
    injection E as <- <-; repeat split; eauto.
Qed.

(** X11.  With a token that verifies, [POST /items] answers 201 exactly
    for the bodies that are objects with a [name] that is a string of at
    least one character and a [description] that is absent or a string;
    other keys do not matter.  Every other body, a [null] description
    included, is answered 400 with the [errors] of the schema and leaves
    the database as it was. *)
Theorem post_items_accepts_exactly
    (e : env) (now : Z) (salt : string) (t : string) (u : jwt_payload) (b : json) (d : db) :
  jwt_verify t (JWT_SECRET e) now = inr u ->
  ((exists body d',
       app e now salt (mk_request POST ["items"] (Some ("Bearer " ++ t)) b) d
       = (Respond 201 body, d'))
   <-> (exists fields n,
          b = JObj fields
          /\ obj_get fields "name" = Some (JStr n)
          /\ (1 <= String.length n)%nat
          /\ (obj_get fields "description" = None
              \/ exists s, obj_get fields "description" = Some (JStr s))))
  /\ ((exists body d',
         app e now salt (mk_request POST ["items"] (Some ("Bearer " ++ t)) b) d
         = (Respond 201 body, d'))
      \/ (exists issues,
            app e now salt (mk_request POST ["items"] (Some ("Bearer " ++ t)) b) d
            = (Respond 400 (Some (JObj [("errors", format issues)])), d))).
Proof.
  intros V. rewrite (app_post_items _ _ _ _ _ _ _ V). unfold post_items.
  cbn [body set_user mk_request]. split; [split|].
  - intros (body0 & d' & E).
    destruct (itemSchema b) as [issues|[n dsc]] eqn:S; [discriminate|].
    destruct (itemSchema_inv _ _ _ S) as (fields & -> & En & Ln & D).
    now exists fields, n.
  - intros (fields & n & -> & En & Ln & D).
    destruct (itemSchema_ok _ _ En Ln D) as (dsc & ->).
    cbn [items_insert]. eauto.
  - destruct (itemSchema b) as [issues|[n dsc]]; [right; eauto|left].
    cbn [items_insert]. eauto.
Qed.

(** X12.  In a consistent database, after [POST /register] answered 201
    for a username, [GET /users] lists the users there were, in their
    order, followed by the new one, under the next id of the counter. *)
Theorem registered_user_is_listed_last
    (e : env) (t1 now : Z) (salt salt' : string) (auth : option string) (t : string)
    (u : jwt_payload) (b b' : json) (name p : string) (d : db) :
  consistent d ->
  userSchema b = inr (name, p) ->
  users_where_username d name = None ->
  jwt_verify t (JWT_SECRET e) now = inr u ->
  let d1 := snd (app e t1 salt (mk_request POST ["register"] auth b) d) in
  app e now salt' (mk_request GET ["users"] (Some ("Bearer " ++ t)) b') d1
  = (Respond 200
       (Some (JArr (map (fun r => JObj [("id", JNum (u_id r));
                                        ("username", JStr (u_username r))]) (users d)
                    ++ [JObj [("id", JNum (users_seq d + 1)); ("username", JStr name)]])%list)),
     d1).
Proof.
  intros C S F V d1. subst d1.
  rewrite app_register, register_cases. cbn [body mk_request snd]. rewrite S, F. cbn [snd].
  rewrite (app_bearer e now salt' GET ["users"] t b' u _ V eq_refl eq_refl).
  change (chain protected_routes finalhandler ?r ?x) with (get_users r x).
  unfold get_users.
  rewrite (order_by_id_increasing _
             (user_ids_increase _ (consistent_users_insert d name (bcrypt_hash p salt) C F))).
  cbn [users_insert users]. now rewrite map_app.
Qed.

(** *** [GET /items] and [GET /items/:id] agree *)

Lemma find_unique_item l row :
  NoDup (map i_id l) -> In row l -> find (fun r => i_id r =? i_id row) l = Some row.
Proof.
  induction l as [|a l IH]; cbn [map find]; intros N I; [contradiction|].
  inversion N as [|? ? Na Nl]; subst.
  destruct I as [->|I]; [now rewrite Z.eqb_refl|].
  destruct (Z.eqb_spec (i_id a) (i_id row)) as [E|_]; [|now apply IH].
  exfalso. apply Na. rewrite E. now apply in_map.
Qed.

(** X13.  In a consistent database the listing and the lookup agree:
    [GET /items] answers 200 with the items in their stored order, each
    with its id, name and description ([null] if it has none);
    [GET /items/:id] answers 200 with the listed item that has this id,
    and 404 exactly when no listed item has it. *)
Theorem listing_agrees_with_lookup
    (e : env) (now : Z) (salt : string) (t : string) (u : jwt_payload) (b : json)
    (s : string) (k : Z) (d : db) :
  consistent d ->
  jwt_verify t (JWT_SECRET e) now = inr u ->
  integer_affinity s = Some k ->
  s <> "" ->
  app e now salt (mk_request GET ["items"] (Some ("Bearer " ++ t)) b) d
    = (Respond 200 (Some (JArr (map item_json (items d)))), d)
  /\ (forall row, In row (items d) -> i_id row = k ->
        app e now salt (mk_request GET ["items"; s] (Some ("Bearer " ++ t)) b) d
        = (Respond 200 (Some (item_json row)), d))
  /\ ((forall row, In row (items d) -> i_id row <> k) ->
        app e now salt (mk_request GET ["items"; s] (Some ("Bearer " ++ t)) b) d
        = (Respond 404 (message "Item not found"), d)).
Proof.
  intros C V A N.
  rewrite (app_bearer e now salt GET ["items"] t b u d V eq_refl eq_refl).
  rewrite (app_get_item _ _ _ _ _ _ _ _ V N). unfold get_item. rewrite A.
  split; [reflexivity|]. split.
  - intros row I <-. cbn [items_where_id].
    now rewrite (find_unique_item _ _ (StronglySorted_lt_NoDup _ (item_ids_increase _ C)) I).
  - intros None. cbn [items_where_id]. rewrite find_none_all; [reflexivity|].
    intros r I. apply Z.eqb_neq. now apply None.
Qed.

End Routes.

(** * Examples: the theorems at concrete requests *)

Import Instances Sample.

Lemma register_login_verify_alice :
  app configured 1000 "salt" (register_request "alice" "secret1") empty_db
    = (Respond 201 (message "User registered successfully"), alice_db)
  /\ app configured 2000 "" (login_request "alice" "secret1") alice_db
    = (Respond 200 (Some (JObj [("token", JStr alice_token)])), alice_db)
  /\ jwt_verify alice_token (JWT_SECRET configured) 5599 = inr alice_identity.
Proof.
  destruct (register_login_verify configured "s3cret" empty_db
              (credentials "alice" "secret1") "alice" "secret1" "salt" None 1000
              eq_refl eq_refl eq_refl ltac:(simpl; lia) ltac:(simpl; lia) eq_refl)
    as (d1 & row & R & F & _ & Later).
  assert (D : d1 = alice_db) by (injection R as <-; reflexivity).
  subst d1.
  assert (W : row = {| u_id := 1; u_username := "alice"; u_password := "1s1a1l1t0secret1" |})
    by (vm_compute in F; now injection F as <-).
  subst row.
  destruct (Later [] 2000 "" None) as (token & L & V).
  assert (T : token = alice_token) by (injection L as <-; reflexivity).
  subst token.
  split; [exact R|]. split; [exact L|].
  exact (proj1 (V 5599 ltac:(unfold one_hour; lia))).
Defined.

Lemma profile_without_token_is_401 :
  app configured 3000 "" (profile_request None) alice_db
    = (Respond 401 (message "Access denied, token missing"), alice_db)
  /\ app configured 3000 "" (profile_request (Some "Bearer garbage")) alice_db
    = (Respond 403 (message "Invalid token"), alice_db)
  /\ app configured 3000 "" (profile_request (Some ("Bearer " ++ alice_token))) alice_db
    = (Respond 200 (Some (JObj [("username", JStr "alice")])), alice_db).
Proof.
  split; [|split].
  - destruct (every_other_endpoint_gated configured 3000 "" (profile_request None) alice_db
                eq_refl) as (_ & G & N).
    rewrite (G eq_refl). exact (proj1 (N _) (or_introl eq_refl)).
  - destruct (every_other_endpoint_gated configured 3000 ""
                (profile_request (Some "Bearer garbage")) alice_db eq_refl) as (_ & G & N).
    rewrite (G eq_refl).
    refine (proj1 (proj2 (N _)) "Bearer garbage" Malformed eq_refl _ _ eq_refl);
      discriminate.
  - destruct (every_other_endpoint_gated configured 3000 ""
                (profile_request (Some ("Bearer " ++ alice_token))) alice_db eq_refl)
      as (_ & G & N).
    rewrite (G eq_refl).
    assert (V : jwt_verify (replace "Bearer " "" ("Bearer " ++ alice_token))
                  (JWT_SECRET configured) 3000 = inr alice_identity) by exact eq_refl.
    rewrite (proj1 (proj2 (proj2 (N _)) ("Bearer " ++ alice_token) alice_identity
                      eq_refl ltac:(discriminate) ltac:(discriminate) V)).
    reflexivity.
Defined.

(** C2 as stated fails: a header that carries no bearer token, only
    [Basic] credentials, is answered 403, not 401; and a preflight with no
    header at all is answered 204 by [cors()]. *)
Lemma basic_header_is_403_and_preflight_is_204 :
  strip_prefix "Bearer " "Basic YWxpY2U6c2VjcmV0MQ==" = None
  /\ app configured 3000 "" (profile_request (Some "Basic YWxpY2U6c2VjcmV0MQ==")) alice_db
     = (Respond 403 (message "Invalid token"), alice_db)
  /\ app configured 3000 "" (mk_request OPTIONS ["profile"] None JNull) alice_db
     = (Respond 204 None, alice_db).
Proof. repeat split. Qed.

(** C3 as stated fails: [alice] is registered and ["abc"] is not her
    password, yet the answer is the schema's [errors], while an unknown
    username with a well-formed password gets [Invalid credentials]. *)
Lemma wrong_short_password_is_validation_error :
  (exists row, users_where_username alice_db "alice" = Some row
               /\ bcrypt_compare "abc" (u_password row) = false)
  /\ users_where_username alice_db "bob" = None
  /\ fst (app configured 2000 "" (login_request "alice" "abc") alice_db)
     = Respond 400 (Some (JObj [("errors", format [too_small ["password"] 6 None])]))
  /\ fst (app configured 2000 "" (login_request "bob" "secret1") alice_db)
     = Respond 400 (message "Invalid credentials")
  /\ fst (app configured 2000 "" (login_request "alice" "abc") alice_db)
     <> fst (app configured 2000 "" (login_request "bob" "secret1") alice_db).
Proof.
  split; [eexists; split; reflexivity|].
  repeat split. discriminate.
Qed.

Lemma invalid_credentials_same_response_alice_bob :
  app configured 2000 "" (login_request "alice" "secret2") alice_db
    = (Respond 400 (message "Invalid credentials"), alice_db)
  /\ app configured 2000 "" (login_request "bob" "secret1") alice_db
    = (Respond 400 (message "Invalid credentials"), alice_db).
Proof.
  exact (invalid_credentials_same_response configured 2000 2000 "" "" None None
           (JObj (credentials "alice" "secret2")) (JObj (credentials "bob" "secret1"))
           "alice" "secret2" "bob" "secret1"
           {| u_id := 1; u_username := "alice"; u_password := "1s1a1l1t0secret1" |}
           alice_db eq_refl eq_refl eq_refl eq_refl eq_refl).
Defined.

(** C4 as stated fails: with no [JWT_SECRET] the process listens and
    serves [/register]; the missing secret shows when a login needs it. *)
Lemma server_starts_without_secret :
  JWT_SECRET unconfigured = None
  /\ boot unconfigured = Listening "3000"
  /\ serve unconfigured 1000 "salt" (register_request "alice" "secret1") empty_db
     = Some (Respond 201 (message "User registered successfully"), alice_db)
  /\ serve unconfigured 2000 "" (login_request "alice" "secret1") alice_db
     = Some (Throw "secretOrPrivateKey must have a value", alice_db).
Proof. repeat split. Qed.

(** C5 as stated fails: the second registration of [alice] is answered
    400 with a [message], and the body has no [errors]. *)
Lemma duplicate_username_body_is_message :
  fst (app configured 1000 "salt" (register_request "alice" "secret1") empty_db)
    = Respond 201 (message "User registered successfully")
  /\ exists body,
       fst (app configured 1500 "pepper" (register_request "alice" "secret2") alice_db)
         = Respond 400 (Some body)
       /\ field body "errors" = None
       /\ field body "message" = Some (JStr "Username already taken").
Proof. split; [reflexivity|]. eexists. repeat split. Qed.

Lemma second_registration_rejected_alice :
  app configured 1000 "salt" (register_request "alice" "secret1") empty_db
    = (Respond 201 (message "User registered successfully"), alice_db)
  /\ app configured 1500 "pepper" (register_request "alice" "secret2") alice_db
    = (Respond 400 (message "Username already taken"), alice_db)
  /\ app configured 1500 "pepper" (register_request "alice" "abc") alice_db
    = (Respond 400 (Some (JObj [("errors", format [too_small ["password"] 6 None])])), alice_db).
Proof.
  split; [reflexivity|]. split.
  - destruct (second_registration_rejected configured 1000 "salt" None
                (JObj (credentials "alice" "secret1")) (credentials "alice" "secret2")
                "alice" "secret1" empty_db eq_refl eq_refl eq_refl) as (d1 & R & Later).
    assert (D : d1 = alice_db) by (injection R as <-; reflexivity). subst d1.
    exact (proj1 (Later [] 1500 "pepper" None) "secret2" eq_refl ltac:(simpl; lia)).
  - destruct (second_registration_rejected configured 1000 "salt" None
                (JObj (credentials "alice" "secret1")) (credentials "alice" "abc")
                "alice" "secret1" empty_db eq_refl eq_refl eq_refl) as (d1 & R & Later).
    assert (D : d1 = alice_db) by (injection R as <-; reflexivity). subst d1.
    exact (proj2 (Later [] 1500 "pepper" None) _ eq_refl).
Defined.

(** C6 as stated fails: the 201 response to [alice] has neither her id
    nor her username, though the row was stored with id 1. *)
Lemma register_response_has_no_id_or_username :
  users_where_username alice_db "alice"
    = Some {| u_id := 1; u_username := "alice"; u_password := bcrypt_hash "secret1" "salt" |}
  /\ exists body,
       fst (app configured 1000 "salt" (register_request "alice" "secret1") empty_db)
         = Respond 201 (Some body)
       /\ field body "id" = None
       /\ field body "username" = None.
Proof. split; [reflexivity|]. eexists. repeat split. Qed.

Lemma alice_token_expiry :
  jwt_verify alice_token (JWT_SECRET configured) 5599 = inr alice_identity
  /\ jwt_verify alice_token (JWT_SECRET configured) 5600 = inl Expired.
Proof.
  assert (L : app configured 2000 "" (login_request "alice" "secret1") alice_db
              = (Respond 200 (Some (JObj [("token", JStr alice_token)])), alice_db))
    by (vm_compute; reflexivity).
  destruct (token_expires_after_one_hour configured 2000 "" None
              (JObj (credentials "alice" "secret1")) alice_db alice_db alice_token L)
    as (identity & I & X & Before & After).
  pose proof (Before 5599 ltac:(lia)) as B.
  assert (E : identity = alice_identity)
    by (vm_compute in B; injection B as B; now subst identity).
  subst identity. split.
  - exact B.
  - exact (proj1 (After 5600 ltac:(lia))).
Defined.

Lemma login_abc_rejected_by_schema :
  app configured 2000 "" (login_request "alice" "abc") alice_db
    = (Respond 400 (Some (JObj [("errors", format [too_small ["password"] 6 None])])), alice_db)
  /\ app configured 2000 "" (login_request "alice" "abc") empty_db
    = (Respond 400 (Some (JObj [("errors", format [too_small ["password"] 6 None])])), empty_db).
Proof.
  destruct (login_short_password_rejected (credentials "alice" "abc") "abc"
              eq_refl ltac:(simpl; lia)) as (issues & S & _ & R).
  assert (I : issues = [too_small ["password"] 6 None])
    by (vm_compute in S; now injection S as <-).
  subst issues. split.
  - exact (proj1 (R configured 2000 "" None alice_db)).
  - exact (proj1 (R configured 2000 "" None empty_db)).
Defined.

(** * Examples for the item routes and the listing *)

Import SampleItems.

Lemma empty_db_consistent : consistent empty_db.
Proof. constructor; cbn; constructor. Qed.

Lemma alice_db_consistent : consistent alice_db.
Proof. exact (app_consistent configured 1000 "salt" _ _ empty_db_consistent). Qed.

Lemma pen_db_consistent : consistent pen_db.
Proof. exact (app_consistent configured 3000 "" _ _ alice_db_consistent). Qed.

Lemma registrations_keep_usernames_distinct :
  map u_username (users (run configured registrations empty_db)) = ["alice"; "bob"]
  /\ NoDup (map u_username (users (run configured registrations empty_db)))
  /\ NoDup (map u_id (users (run configured registrations empty_db))).
Proof.
  split; [reflexivity|].
  destruct (usernames_and_ids_stay_distinct configured registrations empty_db
              empty_db_consistent) as (_ & Nu & Ni & _).
  split; [exact Nu|exact Ni].
Defined.

Lemma post_items_without_token_changes_nothing :
  items (snd (app configured 3000 "" (mk_request POST ["items"] None pen_body) alice_db))
    = items alice_db
  /\ items_seq (snd (app configured 3000 ""
                       (mk_request POST ["items"] None pen_body) alice_db))
    = items_seq alice_db.
Proof.
  exact (items_need_a_verified_token configured 3000 ""
           (mk_request POST ["items"] None pen_body) alice_db (or_introl eq_refl)).
Defined.

Lemma pen_is_created_and_read_back :
  app configured 3000 "" (mk_request POST ["items"] bearer pen_body) alice_db
    = (Respond 201 (Some (JObj [("id", JNum 1); ("name", JStr "pen")])), pen_db)
  /\ app configured 3100 "" (mk_request GET ["items"; "1"] bearer JNull) pen_db
    = (Respond 200 (Some (JObj [("id", JNum 1); ("name", JStr "pen");
                                ("description", JNull)])), pen_db).
Proof.
  exact (created_item_is_read_back configured 3000 3100 "" "" alice_token alice_token
           alice_identity alice_identity pen_body JNull "pen" None "1" alice_db
           alice_db_consistent eq_refl eq_refl eq_refl eq_refl ltac:(discriminate)).
Defined.

Lemma pen_becomes_pencil :
  app configured 3100 "" (mk_request GET ["items"; "1"] bearer JNull)
    (snd (app configured 3050 "" (mk_request PUT ["items"; "1"] bearer pencil_body) pen_db))
  = (Respond 200 (Some (JObj [("id", JNum 1); ("name", JStr "pencil");
                              ("description", JStr "HB")])),
     snd (app configured 3050 "" (mk_request PUT ["items"; "1"] bearer pencil_body) pen_db)).
Proof.
  exact (proj1 (proj2 (updated_item_is_read_back configured 3050 3100 "" ""
           alice_token alice_token alice_identity alice_identity pencil_body JNull
           "pencil" (Some "HB") "1" 1 pen_row pen_db
           eq_refl eq_refl eq_refl eq_refl ltac:(discriminate) eq_refl))).
Defined.

Lemma pen_is_deleted :
  app configured 3200 "" (mk_request DELETE ["items"; "1"] bearer JNull) pen_db
    = (Respond 200 (message "Item deleted"), run configured [delete_pen] pen_db)
  /\ app configured 3300 "" (mk_request GET ["items"; "1"] bearer JNull)
       (run configured [delete_pen] pen_db)
    = (Respond 404 (message "Item not found"), run configured [delete_pen] pen_db).
Proof.
  assert (V : jwt_verify alice_token (JWT_SECRET configured) 3200 = inr alice_identity)
    by exact eq_refl.
  assert (V' : jwt_verify alice_token (JWT_SECRET configured) 3300 = inr alice_identity)
    by exact eq_refl.
  assert (F : items_where_id pen_db (Some 1) = Some pen_row) by exact eq_refl.
  assert (A : integer_affinity "1" = Some 1) by exact eq_refl.
  destruct (deleted_item_is_gone configured 3200 3300 "" "" alice_token alice_token
              alice_identity alice_identity JNull JNull "1" 1 pen_row pen_db
              V V' A ltac:(discriminate) F) as (D & G & _).
  split; [exact D|exact G].
Defined.

Lemma id_of_pen_is_not_reused :
  exists id d',
    app configured 3400 "" (mk_request POST ["items"] bearer pencil_body)
      (run configured [delete_pen] pen_db)
    = (Respond 201 (Some (JObj [("id", JNum id); ("name", JStr "pencil");
                                ("description", JStr "HB")])), d')
    /\ 1 < id.
Proof.
  exact (item_ids_are_not_reused configured 3400 "" alice_token alice_identity pencil_body
           "pencil" (Some "HB") pen_row pen_db pen_db_consistent (or_introl eq_refl)
           eq_refl eq_refl [delete_pen]).
Defined.

Lemma alice_and_bob_are_listed :
  exists rows,
    app configured 3000 "" (mk_request GET ["users"] bearer JNull)
      (run configured registrations empty_db)
    = (Respond 200
         (Some (JArr (map (fun r => JObj [("id", JNum (u_id r));
                                          ("username", JStr (u_username r))]) rows))),
       run configured registrations empty_db)
    /\ Permutation rows (users (run configured registrations empty_db))
    /\ StronglySorted (fun a b => u_id a <= u_id b) rows
    /\ (consistent (run configured registrations empty_db) ->
        rows = users (run configured registrations empty_db)).
Proof.
  exact (users_are_listed_by_id configured 3000 "" alice_token alice_identity JNull
           (run configured registrations empty_db) eq_refl).
Defined.

Lemma alice_sees_her_profile :
  app configured 3000 "" (mk_request GET ["profile"] bearer JNull)
    (run configured [delete_pen] alice_db)
  = (Respond 200 (Some (JObj [("username", JStr "alice")])),
     run configured [delete_pen] alice_db).
Proof.
  assert (L : app configured 2000 "" (mk_request POST ["login"] None
                                        (JObj (credentials "alice" "secret1"))) alice_db
              = (Respond 200 (Some (JObj [("token", JStr alice_token)])), alice_db))
    by (vm_compute; reflexivity).
  destruct (profile_shows_who_logged_in configured 2000 "" None _ alice_db alice_db
              alice_token alice_db_consistent L) as (u & U & P).
  assert (E : u = "alice") by (cbn in U; now injection U as <-).
  subst u. exact (P [delete_pen] 3000 "" JNull ltac:(lia)).
Defined.

Lemma pen_body_is_accepted_and_null_description_is_not :
  (exists body d',
      app configured 3000 "" (mk_request POST ["items"] bearer pen_body) alice_db
      = (Respond 201 body, d'))
  /\ ~ (exists body d',
          app configured 3000 ""
            (mk_request POST ["items"] bearer
               (JObj [("name", JStr "pen"); ("description", JNull)])) alice_db
          = (Respond 201 body, d')).
Proof.
  assert (V : jwt_verify alice_token (JWT_SECRET configured) 3000 = inr alice_identity)
    by exact eq_refl.
  split.
  - apply (proj1 (post_items_accepts_exactly configured 3000 "" alice_token alice_identity
                    pen_body alice_db V)).
    exists [("name", JStr "pen")], "pen". repeat split; [cbn; lia|now left].
  - intros A.
    apply (proj1 (post_items_accepts_exactly configured 3000 "" alice_token alice_identity
                    _ alice_db V)) in A.
    destruct A as (fields & n & E & _ & _ & [D|(s & D)]); injection E as <-;
      discriminate D.
Defined.

Lemma bob_is_listed_after_alice :
  app configured 3000 "" (mk_request GET ["users"] bearer JNull)
    (snd (app configured 1100 "pepper" (register_request "bob" "hunter22") alice_db))
  = (Respond 200 (Some (JArr [JObj [("id", JNum 1); ("username", JStr "alice")];
                              JObj [("id", JNum 2); ("username", JStr "bob")]])),
     snd (app configured 1100 "pepper" (register_request "bob" "hunter22") alice_db)).
Proof.
  exact (registered_user_is_listed_last configured 1100 3000 "pepper" "" None alice_token
           alice_identity (JObj (credentials "bob" "hunter22")) JNull "bob" "hunter22"
           alice_db alice_db_consistent eq_refl eq_refl eq_refl).
Defined.

Lemma pen_is_listed_and_found :
  app configured 3100 "" (mk_request GET ["items"] bearer JNull) pen_db
    = (Respond 200 (Some (JArr [JObj [("id", JNum 1); ("name", JStr "pen");
                                      ("description", JNull)]])), pen_db)
  /\ app configured 3100 "" (mk_request GET ["items"; "1"] bearer JNull) pen_db
    = (Respond 200 (Some (JObj [("id", JNum 1); ("name", JStr "pen");
                                ("description", JNull)])), pen_db).
Proof.
  assert (V : jwt_verify alice_token (JWT_SECRET configured) 3100 = inr alice_identity)
    by exact eq_refl.
  assert (A : integer_affinity "1" = Some 1) by exact eq_refl.
  destruct (listing_agrees_with_lookup configured 3100 "" alice_token alice_identity JNull
              "1" 1 pen_db pen_db_consistent V A ltac:(discriminate)) as (L & G & _).
  split; [exact L|]. exact (G pen_row (or_introl eq_refl) eq_refl).
Defined.
